(** * go-selenium: the remote WebDriver client of remote.go

    A shallow embedding of the command executor, the session manager, the
    element reference resolver and the cookie expiry patch, and the
    properties the specification states about them.

    Go values are modelled as follows.
    - string and []byte are [string] (a list of bytes); a nil slice of bytes
      is the empty string, which is all the code can observe through len.
    - int and uint are [Z] within the range of [intBits] bits, the word size
      of the platform.
    - a Go error value is [option error], [None] being nil.
    - a pointer that may be nil is an [option].
    - a panic is the [Panicked] outcome.
    - the driver and the outside world (network, cancellation tokens) are
      passed explicitly as a [State]; a method with a pointer receiver
      returns the driver it has written to, a method with a value receiver
      the driver it was called on.
    The packages of the Go distribution the code calls (encoding/json,
    net/http, strconv, fmt) are not part of the repository: what the code
    needs from them is collected in the class [Platform], and every theorem
    holds for every platform. [Demo] instantiates the class for the worked
    examples. The logging statements (Log, Trace) write to standard error
    and influence no result; they are left out. *)

From stdpp Require Import gmap strings list pretty.
From Stdlib Require Import ZArith QArith Qround Ascii.

Set Warnings "-register-all".
Close Scope Q_scope.

(** ** JSON trees and Go errors *)

(** The tree encoding/json's scanner delimits in a JSON text. A number keeps
    its literal, as the decoder converts it only once the target type is
    known. *)
Inductive Json : Type :=
| JNull
| JBool (b : bool)
| JNumber (lit : string)
| JString (s : string)
| JArray (elems : list Json)
| JObject (members : list (string * Json)).

(** Go error values. [ErrCanceled] is the package variable of that name: a
    value of its own, equal to no other error, whatever the text. *)
Inductive error : Type :=
| ErrCanceled
| errorString (text : string)          (* errors.New, fmt.Errorf *)
| SyntaxError                          (* json: not a JSON text, or empty input *)
| UnmarshalTypeError (target : string) (* json: value not appropriate for the target *)
| InvalidNumberLiteral (lit : string)  (* json: a string that is no number, into a Number *)
| UnsupportedValueError                (* json: Marshal of a value it cannot encode *)
| libraryError (text : string)         (* an error made by net/http or io *)
| urlError (inner : error).            (* net/http: the error of CheckRedirect, wrapped *)

Global Instance error_eq_dec : EqDecision error.
Proof. solve_decision. Defined.

(** What a Go call that may panic does. *)
Inductive PanicValue : Type :=
| nilDereference                                  (* runtime error: nil pointer dereference *)
| indexOutOfRange (i n : nat)                     (* runtime error: index out of range *)
| decodePanic (err : error) (raw : option Json).  (* panic(err.Error() + ": " + string(r.Value)) *)

Inductive outcome (A : Type) : Type :=
| Return (a : A)
| Panicked (p : PanicValue).
Arguments Return {A} a.
Arguments Panicked {A} p.

(** The error monad of the decoders. *)
Definition bindE {A B : Type} (x : error + A) (f : A → error + B) : error + B :=
  match x with
  | inl e => inl e
  | inr a => f a
  end.
Notation "'do!' x ← e ; k" := (bindE e (λ x, k))
  (at level 10, x name, e at level 100, k at level 200).

(** ** The outside world *)

(** context.Context: the background context, which is never done, or a
    cancellable context, identified by a token. *)
Inductive Context : Type :=
| Background
| WithCancel (token : nat).

Global Instance Context_eq_dec : EqDecision Context.
Proof. solve_decision. Defined.

(** http.Request, as far as this package builds it. *)
Record Request : Type := mkRequest {
  Method : string;
  URL : string;
  Header : list (string * string);
  Body : string;
  reqCtx : Context
}.

(** http.Response as execute reads it: [ContentType] is
    res.Header.Get of Content-Type and [ReadAll] the result of
    ioutil.ReadAll(res.Body), the text of the error or the bytes read. *)
Record Response : Type := mkResponse {
  HTTPStatus : string;
  StatusCode : Z;
  ContentType : string;
  ReadAll : string + string
}.

(** The world: every request put on the wire so far, oldest first, and the
    cancellation tokens that have fired. *)
Record World : Type := mkWorld {
  sent : list Request;
  fired : gset nat
}.

(** One round trip of the transport. A 3xx answer the client will follow is
    [Redirected next], where [next] is the upcoming request as http.Client
    has prepared it when it calls CheckRedirect. [fires] are the tokens
    cancelled by the caller while the request was in flight. *)
Inductive Answer : Type :=
| Failed (text : string)
| Redirected (next : Request)
| Answered (res : Response).

Record Exchange : Type := mkExchange {
  fires : gset nat;
  answer : Answer
}.

(** ** The Go distribution, as far as the package depends on it *)
Class Platform : Type := {
  (** encoding/json, scanner: the tree of a JSON text, None for a syntax
      error (the empty input included). *)
  scan : string → option Json;
  (** encoding/json, encoder: the text written for a tree. *)
  encode : Json → string;
  (** encoding/json, foldName: keys match a field when their folded names
      are equal (upper case for ASCII, Unicode simple folding beyond). *)
  foldName : string → string;
  (** strconv.Quote on a maximal run of bytes above 0x7f: UTF-8 decoding,
      escapes for invalid bytes and unprintable runes. *)
  quoteHigh : string → string;
  (** fmt.Sprintf with string operands. *)
  Sprintf : string → list string → string;
  (** strconv.ParseFloat(s, 64): the value of the nearest float64, None
      when it returns an error. *)
  ParseFloat : string → option Q;
  (** The size of int and uint in bits, 32 or 64. *)
  intBits : Z;
  (** uint(f) for an f whose truncation is outside the range of uint, which
      the language leaves to the implementation. *)
  uintOutOfRange : Q → Z;
  (** http.NewRequest: the text of the error for a method or URL it
      rejects. *)
  NewRequestError : string → string → option string;
  (** http.Transport: the server and the network. *)
  RoundTrip : World → Request → Exchange
}.

(** ** Error Catalog *)

(** var errorCodes = map[int]string{ ... } *)
Definition errorCodes : gmap Z string :=
  list_to_map [
    (7%Z, "no such element");
    (8%Z, "no such frame");
    (9%Z, "unknown command");
    (10%Z, "stale element reference");
    (11%Z, "element not visible");
    (12%Z, "invalid element state");
    (13%Z, "unknown error");
    (15%Z, "element is not selectable");
    (17%Z, "javascript error");
    (19%Z, "xpath lookup error");
    (21%Z, "timeout");
    (23%Z, "no such window");
    (24%Z, "invalid cookie domain");
    (25%Z, "unable to set cookie");
    (26%Z, "unexpected alert open");
    (27%Z, "no alert open");
    (28%Z, "script timeout");
    (29%Z, "invalid element coordinates");
    (32%Z, "invalid selector")
  ].

Definition SUCCESS : Z := 0.
Definition defaultExecutor : string := "http://127.0.0.1:4444/wd/hub".
Definition jsonMIMEType : string := "application/json".

(** ** strconv.Quote, the %q verb of fmt *)

Definition dquote : string := String "034"%char EmptyString.

(** lowerhex[n] *)
Definition lowerhex (n : N) : ascii :=
  if (n <? 10)%N then ascii_of_N (48 + n) else ascii_of_N (87 + n).

(** appendEscapedRune for a rune below 0x80, the quote being the double
    quote: quote and backslash are backslashed, printable runes copied,
    the seven named control characters use their letter, the others \x and
    two hexadecimal digits. *)
Definition escapeASCII (c : ascii) : string :=
  let n := N_of_ascii c in
  if (n =? 34)%N then "\" +:+ dquote
  else if (n =? 92)%N then "\\"
  else if (32 <=? n)%N && (n <? 127)%N then String c EmptyString
  else if (n =? 7)%N then "\a"
  else if (n =? 8)%N then "\b"
  else if (n =? 12)%N then "\f"
  else if (n =? 10)%N then "\n"
  else if (n =? 13)%N then "\r"
  else if (n =? 9)%N then "\t"
  else if (n =? 11)%N then "\v"
  else "\x" +:+ String (lowerhex (n / 16)) (String (lowerhex (n mod 16)) EmptyString).

Section WithPlatform.
Context `{P : Platform}.

Definition flushHigh (high : string) : string :=
  match high with
  | EmptyString => EmptyString
  | _ => quoteHigh high
  end.

(** The loop of appendQuotedWith. A rune of more than one byte and an
    invalid byte are both made of bytes above 0x7f only, so the text written
    for such bytes depends on their maximal run alone: [high] collects it. *)
Fixpoint quoteFrom (high : string) (s : string) : string :=
  match s with
  | EmptyString => flushHigh high
  | String c s' =>
      if (128 <=? N_of_ascii c)%N
      then quoteFrom (high +:+ String c EmptyString) s'
      else flushHigh high +:+ escapeASCII c +:+ quoteFrom EmptyString s'
  end.

Definition Quote (s : string) : string :=
  dquote +:+ quoteFrom EmptyString s +:+ dquote.

(** ** encoding/json: storing a tree into a Go value *)

(** The key of an object member selects the field whose name folds to the
    same string. *)
Definition keyIs (name key : string) : bool :=
  bool_decide (foldName key = foldName name).

Definition digitVal (c : ascii) : option Z :=
  let n := Z.of_N (N_of_ascii c) in
  if (48 <=? n)%Z && (n <=? 57)%Z then Some (n - 48)%Z else None.

Fixpoint parseDigits (acc : Z) (s : string) : option Z :=
  match s with
  | EmptyString => Some acc
  | String c s' =>
      match digitVal c with
      | Some d => parseDigits (10 * acc + d)%Z s'
      | None => None
      end
  end.

(** The integer a literal made of an optional minus sign and digits
    denotes. A literal with a fraction or an exponent is no integer. *)
Definition parseDecimal (lit : string) : option Z :=
  let '(neg, ds) :=
    match lit with
    | String "-"%char ds => (true, ds)
    | _ => (false, lit)
    end in
  match ds with
  | EmptyString => None
  | _ =>
      match parseDigits 0 ds with
      | Some n => Some (if neg then (- n)%Z else n)
      | None => None
      end
  end.

(** The literal of a JSON number into an int: strconv.ParseInt(lit, 10, 64)
    and the overflow check of the decoder against the size of int. *)
Definition ParseInt (lit : string) : option Z :=
  match parseDecimal lit with
  | Some v =>
      if (- 2 ^ (intBits - 1) <=? v)%Z && (v <? 2 ^ (intBits - 1))%Z then Some v else None
  | None => None
  end.

Definition isDigit (c : ascii) : bool :=
  let n := N_of_ascii c in (48 <=? n)%N && (n <=? 57)%N.

Fixpoint dropDigits (s : string) : string :=
  match s with
  | String c s' => if isDigit c then dropDigits s' else s
  | EmptyString => EmptyString
  end.

(** encoding/json, isValidNumber. *)
Definition isValidNumber (s : string) : bool :=
  match s with
  | EmptyString => false
  | _ =>
    let s := match s with String "-"%char s' => s' | _ => s end in
    match s with
    | EmptyString => false
    | String c s1 =>
      let afterInt :=
        if (N_of_ascii c =? 48)%N then Some s1
        else if isDigit c then Some (dropDigits s1)
        else None in
      match afterInt with
      | None => false
      | Some s2 =>
        let s3 :=
          match s2 with
          | String "."%char (String d s') =>
              if isDigit d then dropDigits s' else s2
          | _ => s2
          end in
        let s4 :=
          match s3 with
          | String e (String x s') =>
              if (N_of_ascii e =? 101)%N || (N_of_ascii e =? 69)%N then
                if (N_of_ascii x =? 43)%N || (N_of_ascii x =? 45)%N then
                  match s' with
                  | EmptyString => None
                  | _ => Some (dropDigits s')
                  end
                else Some (dropDigits (String x s'))
              else Some s3
          | _ => Some s3
          end in
        match s4 with
        | Some EmptyString => true
        | _ => false
        end
      end
    end
  end.

(** A JSON value into a Go string, bool, int or json.Number. JSON null
    leaves the target as it is. *)
Definition storeString (target : string) (old : string) (v : Json) : error + string :=
  match v with
  | JString s => inr s
  | JNull => inr old
  | _ => inl (UnmarshalTypeError target)
  end.

Definition storeBool (target : string) (old : bool) (v : Json) : error + bool :=
  match v with
  | JBool b => inr b
  | JNull => inr old
  | _ => inl (UnmarshalTypeError target)
  end.

Definition storeInt (target : string) (old : Z) (v : Json) : error + Z :=
  match v with
  | JNumber lit =>
      match ParseInt lit with
      | Some n => inr n
      | None => inl (UnmarshalTypeError target)
      end
  | JNull => inr old
  | _ => inl (UnmarshalTypeError target)
  end.

Definition storeNumber (target : string) (old : string) (v : Json) : error + string :=
  match v with
  | JNumber lit => inr lit
  | JString s => if isValidNumber s then inr s else inl (InvalidNumberLiteral s)
  | JNull => inr old
  | _ => inl (UnmarshalTypeError target)
  end.

(** The members of an object are stored one after the other, in the order
    of the text; a later member overwrites an earlier one. The first error
    is the one Unmarshal returns; the target as Go leaves it next to that
    error is given by [fillMembers], [fillStruct] and [fillSlice] below. *)
Fixpoint storeMembers {T : Type} (store : string → Json → T → error + T)
    (ms : list (string * Json)) (t : T) : error + T :=
  match ms with
  | [] => inr t
  | (k, v) :: ms' => do! t' ← store k v t; storeMembers store ms' t'
  end.

Definition storeStruct {T : Type} (target : string)
    (store : string → Json → T → error + T) (t : T) (v : Json) : error + T :=
  match v with
  | JNull => inr t
  | JObject ms => storeMembers store ms t
  | _ => inl (UnmarshalTypeError target)
  end.

(** A JSON array into a nil slice: one element, decoded from the zero
    value, for each element of the array; null leaves the slice nil. *)
Fixpoint storeElems {T : Type} (dec : Json → error + T) (vs : list Json) : error + list T :=
  match vs with
  | [] => inr []
  | v :: vs' => do! x ← dec v; do! xs ← storeElems dec vs'; inr (x :: xs)
  end.

Definition storeSlice {T : Type} (target : string) (dec : Json → error + T)
    (v : Json) : error + list T :=
  match v with
  | JNull => inr []
  | JArray vs => storeElems dec vs
  | _ => inl (UnmarshalTypeError target)
  end.

(** The target next to an error. A value of the wrong type is noted and
    skipped (the first such note is the error Unmarshal returns at the
    end) and decoding goes on: the members and elements that fit are
    stored, a field whose value does not fit keeps what it had, and a slice
    has one element for every element of the array. This is the course of
    Unmarshal for targets made of strings and booleans, where a mismatch of
    types is the only error; [store] is the store of one field. *)
Fixpoint fillMembers {T : Type} (store : string → Json → T → error + T)
    (ms : list (string * Json)) (t : T) : T :=
  match ms with
  | [] => t
  | (k, v) :: ms' =>
      fillMembers store ms' (match store k v t with inr t' => t' | inl _ => t end)
  end.

Definition fillStruct {T : Type} (store : string → Json → T → error + T) (t : T)
    (v : Json) : T :=
  match v with
  | JObject ms => fillMembers store ms t
  | _ => t
  end.

(** A nil raw message is a syntax error, found before anything is stored;
    a value that is no array leaves the slice nil. *)
Definition fillSlice {T : Type} (fill : Json → T) (raw : option Json) : list T :=
  match raw with
  | Some (JArray vs) => fill <$> vs
  | _ => []
  end.

(** json.Unmarshal(data, &target) for a decoder [dec] of the target. *)
Definition Unmarshal {T : Type} (data : string) (dec : Json → error + T) : error + T :=
  match scan data with
  | None => inl SyntaxError
  | Some j => dec j
  end.

(** json.Unmarshal on a json.RawMessage. The raw message holds the bytes of
    a value the scanner has delimited, so scanning them again gives that
    value: the model keeps the tree. A nil raw message is the empty input. *)
Definition UnmarshalRaw {T : Type} (raw : option Json) (dec : Json → error + T) : error + T :=
  match raw with
  | None => inl SyntaxError
  | Some j => dec j
  end.

(** ** Reply envelope *)

(** type reply struct { SessionId string; Status int; Value json.RawMessage } *)
Record reply : Type := mkReply {
  SessionId : string;
  Status : Z;
  Value : option Json
}.

Definition reply_zero : reply := mkReply EmptyString 0 None.

Definition reply_store (k : string) (v : Json) (r : reply) : error + reply :=
  if keyIs "SessionId" k then
    do! s ← storeString "reply.SessionId" (SessionId r) v;
    inr (mkReply s (Status r) (Value r))
  else if keyIs "Status" k then
    do! n ← storeInt "reply.Status" (Status r) v;
    inr (mkReply (SessionId r) n (Value r))
  else if keyIs "Value" k then
    inr (mkReply (SessionId r) (Status r) (Some v))
  else inr r.

(** Into reply, a pointer obtained from new(reply). *)
Definition decode_reply (v : Json) : error + reply :=
  storeStruct "reply" reply_store reply_zero v.

(** Into &r where r is a nil *reply: null leaves the pointer nil, an object
    allocates the struct. *)
Definition decode_reply_ptr (v : Json) : error + option reply :=
  match v with
  | JNull => inr None
  | _ => do! r ← decode_reply v; inr (Some r)
  end.

(** type replyValue struct { Message string `json:"message"` } *)
Definition replyValue_store (k : string) (v : Json) (m : string) : error + string :=
  if keyIs "message" k then storeString "replyValue.message" m v else inr m.

Definition decode_replyValue (v : Json) : error + string :=
  storeStruct "replyValue" replyValue_store EmptyString v.

(** type replyMessage struct { ErrorMessage string `json:"errorMessage"` } *)
Definition replyMessage_store (k : string) (v : Json) (m : string) : error + string :=
  if keyIs "errorMessage" k then storeString "replyMessage.errorMessage" m v else inr m.

Definition decode_replyMessage (v : Json) : error + string :=
  storeStruct "replyMessage" replyMessage_store EmptyString v.

(** The closure pE of execute. Its assignments to err are overwritten by
    the return statement of the caller and have no effect. *)
Definition backendError (r : reply) : string :=
  match UnmarshalRaw (Value r) decode_replyValue with
  | inr Message =>
      if String.eqb Message EmptyString then EmptyString
      else
        match Unmarshal Message decode_replyMessage with
        | inr ErrorMessage => ErrorMessage
        | inl _ => EmptyString
        end
  | inl _ => EmptyString
  end.

Definition catalogMessage (status : Z) : string :=
  match errorCodes !! status with
  | Some message => message
  | None => "unknown error - " +:+ pretty status
  end.

Definition pE (r : reply) : error :=
  errorString (catalogMessage (Status r) +:+ " - " +:+ Quote (backendError r)).

(** ** Go values handed to json.Marshal *)

(** type element struct { Element string `json:"ELEMENT"` } *)
Record element : Type := mkElement { Element : string }.

(** type remoteWE struct { parent *remoteWebDriver; id string }. The State
    holds one driver, the parent of every handle. *)
Record remoteWE : Type := mkRemoteWE { elem_id : string }.

(** The dynamic values (interface{}) that reach json.Marshal: capabilities,
    parameters and script arguments. The members of a map are listed in
    increasing key order, the order in which Marshal writes them. *)
Inductive GoValue : Type :=
| GoNil
| GoBool (b : bool)
| GoInt (n : Z)
| GoString (s : string)
| GoSlice (elems : list GoValue)
| GoMap (members : list (string * GoValue))
| GoRemoteWE (v : remoteWE)      (* a *remoteWE *)
| GoElement (e : element)        (* a *element *)
| GoUnsupported.                 (* a channel, a function, ... *)

(** json.Marshal, up to the text: a struct is written with its exported
    fields, so a remoteWE, which has none, is the empty object. *)
Fixpoint Marshal (v : GoValue) : error + Json :=
  match v with
  | GoNil => inr JNull
  | GoBool b => inr (JBool b)
  | GoInt n => inr (JNumber (pretty n))
  | GoString s => inr (JString s)
  | GoSlice vs =>
      do! js ← (fix all (vs : list GoValue) : error + list Json :=
                  match vs with
                  | [] => inr []
                  | v :: vs' => do! j ← Marshal v; do! js ← all vs'; inr (j :: js)
                  end) vs;
      inr (JArray js)
  | GoMap ms =>
      do! js ← (fix all (ms : list (string * GoValue)) : error + list (string * Json) :=
                  match ms with
                  | [] => inr []
                  | (k, v) :: ms' => do! j ← Marshal v; do! js ← all ms'; inr ((k, j) :: js)
                  end) ms;
      inr (JObject js)
  | GoRemoteWE _ => inr (JObject [])
  | GoElement e => inr (JObject [("ELEMENT", JString (Element e))])
  | GoUnsupported => inl UnsupportedValueError
  end.

(** ** The driver *)

(** type remoteWebDriver struct. The mutex haveQuitMu is held from the
    entry of Quit to its return; in this sequential model it is free
    whenever Quit is entered (see [Quit_unfold]) and is left out. *)
Record remoteWebDriver : Type := mkDriver {
  wd_id : string;
  wd_executor : string;
  wd_capabilities : GoValue;
  wd_ctx : Context;
  wd_haveQuit : bool
}.

Definition State : Type := remoteWebDriver * World.

Definition set_id (v : string) (wd : remoteWebDriver) : remoteWebDriver :=
  mkDriver v (wd_executor wd) (wd_capabilities wd) (wd_ctx wd) (wd_haveQuit wd).
Definition set_ctx (c : Context) (wd : remoteWebDriver) : remoteWebDriver :=
  mkDriver (wd_id wd) (wd_executor wd) (wd_capabilities wd) c (wd_haveQuit wd).
Definition set_haveQuit (b : bool) (wd : remoteWebDriver) : remoteWebDriver :=
  mkDriver (wd_id wd) (wd_executor wd) (wd_capabilities wd) (wd_ctx wd) b.

(** case <-ctx.Done(): whether the token of the context has fired. *)
Definition Done (c : Context) (w : World) : bool :=
  match c with
  | Background => false
  | WithCancel token => bool_decide (token ∈ fired w)
  end.

Definition SetContext (c : Context) (st : State) : State :=
  (set_ctx c st.1, st.2).

Definition url (wd : remoteWebDriver) (template : string) (args : list string) : string :=
  wd_executor wd +:+ Sprintf template args.

(** ** httpClient *)

(** req.Header.Add(key, value) *)
Definition Header_Add (key value : string) (req : Request) : Request :=
  mkRequest (Method req) (URL req) (Header req ++ [(key, value)]) (Body req) (reqCtx req).

(** httpClient.CheckRedirect: the error, and the request with its header. *)
Definition CheckRedirect (req : Request) (via : list Request) : option error * Request :=
  if bool_decide (10 ≤ length via)
  then (Some (errorString "stopped after 10 redirects"), req)
  else (None, Header_Add "Accept" jsonMIMEType req).

(** One iteration of the loop of http.Client.Do, as net/http documents it:
    the request is sent; when the answer is a redirect the client prepares
    the upcoming request and calls CheckRedirect with it and with the
    requests made already, oldest first; an error of CheckRedirect ends the
    call with that error, wrapped; otherwise the upcoming request is to be
    sent in turn. The dial, handshake and whole-request timeouts end a
    round trip with [Failed]. *)
Inductive Hop : Type :=
| Finished (result : error + Response) (w : World)
| Follow (via : list Request) (next : Request) (w : World).

Definition hop (via : list Request) (req : Request) (w : World) : Hop :=
  let x := RoundTrip w req in
  let w1 := mkWorld (sent w ++ [req]) (fired w ∪ fires x) in
  match answer x with
  | Failed text => Finished (inl (libraryError text)) w1
  | Answered res => Finished (inr res) w1
  | Redirected next =>
      match CheckRedirect next (via ++ [req]) with
      | (Some err, _) => Finished (inl (urlError err)) w1
      | (None, next') => Follow (via ++ [req]) next' w1
      end
  end.

(** The loop. [fuel] bounds the number of redirects followed;
    [clientDo_fuel] shows that 9 is never exhausted. *)
Fixpoint clientDo (fuel : nat) (via : list Request) (req : Request) (w : World)
    : (error + Response) * World :=
  match hop via req w with
  | Finished result w1 => (result, w1)
  | Follow via' next w1 =>
      match fuel with
      | O => (inl (libraryError "redirect budget of the model exhausted"), w1)
      | S fuel' => clientDo fuel' via' next w1
      end
  end.

Definition httpClient_Do (req : Request) (w : World) : (error + Response) * World :=
  clientDo 9 [] req w.

(** ** Command executor *)

(** The request execute hands to the client, when http.NewRequest accepts
    the method and the URL: the Accept header, the Content-Type header for
    a POST, and wd.ctx as its context. *)
Definition newRequest (wd : remoteWebDriver) (method url data : string) : Request :=
  mkRequest method url
    ([("Accept", jsonMIMEType)] ++
     (if String.eqb method "POST" then [("Content-Type", jsonMIMEType)] else []))
    data (wd_ctx wd).

(** The statements of execute between the first check of the token and the
    return (the deferred check runs after them). The results are the named
    results buf and err. *)
Definition execute_body (wd : remoteWebDriver) (method url data : string) (w : World)
    : (string * option error) * World :=
  match NewRequestError method url with
  | Some text => ((EmptyString, Some (libraryError text)), w)
  | None =>
      match httpClient_Do (newRequest wd method url data) w with
      | (inl err, w1) => ((EmptyString, Some err), w1)
      | (inr res, w1) =>
          match ReadAll res with
          | inl text => ((EmptyString, Some (libraryError text)), w1)
          | inr buf =>
              if (400 <=? StatusCode res)%Z then
                match Unmarshal buf decode_reply with
                | inl _ =>
                    ((EmptyString,
                      Some (errorString ("Bad server reply status: " +:+ HTTPStatus res))), w1)
                | inr reply => ((EmptyString, Some (pE reply)), w1)
                end
              else if String.prefix jsonMIMEType (ContentType res) then
                match Unmarshal buf decode_reply with
                | inl err => ((EmptyString, Some err), w1)
                | inr reply =>
                    if bool_decide (Status reply ≠ SUCCESS)
                    then ((EmptyString, Some (pE reply)), w1)
                    else ((buf, None), w1)
                end
              else ((buf, None), w1)
          end
      end
  end.

(** execute and Quit call each other. Each is written over the other one,
    given as a parameter; the knot is tied below. The parameter ctx of
    execute is not used by its body: the token read is wd.ctx. *)
Definition execute_gen (Quit : Context → State → option error * State)
    (ctx : Context) (method url data : string) (st : State)
    : (string * option error) * State :=
  let '(wd, w) := st in
  if Done (wd_ctx wd) w then
    let '(_, st') := Quit Background st in
    ((EmptyString, Some ErrCanceled), st')
  else
    let '((buf, err), w1) := execute_body wd method url data w in
    if Done (wd_ctx wd) w1 then
      let '(_, st') := Quit Background (wd, w1) in
      ((buf, Some ErrCanceled), st')
    else ((buf, err), (wd, w1)).

Definition Quit_gen
    (execute : Context → string → string → string → State → (string * option error) * State)
    (ctx : Context) (st : State) : option error * State :=
  let '(wd, w) := st in
  if wd_haveQuit wd then (None, st)
  else
    let wd := set_ctx Background (set_haveQuit true wd) in
    let '((_, err), (wd, w)) :=
      execute ctx "DELETE" (url wd "/session/%s" [wd_id wd]) EmptyString (wd, w) in
    match err with
    | None => (None, (set_id EmptyString wd, w))
    | Some e => (Some e, (wd, w))
    end.

(** The call of execute inside Quit runs with wd.ctx the background
    context, so neither of its checks calls Quit again: whatever stands for
    Quit at that level is never run. [execute] and [Quit] satisfy the two
    equations of the source, [execute_unfold] and [Quit_unfold]. *)
Definition execute_in_Quit := execute_gen (λ _ st, (None, st)).
Definition Quit : Context → State → option error * State := Quit_gen execute_in_Quit.
Definition execute := execute_gen Quit.

Definition send (ctx : Context) (method url data : string) (st : State)
    : (option reply * option error) * State :=
  let '((buf, err), st) := execute ctx method url data st in
  match err with
  | Some e => ((None, Some e), st)
  | None =>
      if bool_decide (0 < String.length buf) then
        match Unmarshal buf decode_reply_ptr with
        | inl e => ((None, Some e), st)
        | inr r => ((r, None), st)
        end
      else ((None, None), st)
  end.

(** func (r *reply) readValue(v interface{}) error, for a target decoded by
    [dec]: reading r.Value through a nil r panics. *)
Definition readValue {T : Type} (r : option reply) (dec : Json → error + T)
    : outcome (error + T) :=
  match r with
  | None => Panicked nilDereference
  | Some r => Return (UnmarshalRaw (Value r) dec)
  end.

(** The results (v, err) of a command whose v is a string, a bool or an
    interface{}: v keeps its zero value when the decoding fails, a value of
    another type being skipped. *)
Definition results {T : Type} (zero : T) (x : error + T) : T * option error :=
  match x with
  | inl e => (zero, Some e)
  | inr v => (v, None)
  end.

(** if r, err = wd.send(...); err == nil { err = r.readValue(&v) }; return *)
Definition sendAndRead {T : Type} (zero : T) (dec : Json → error + T)
    (ctx : Context) (method url data : string) (st : State)
    : outcome (T * option error) * State :=
  let '((r, err), st) := send ctx method url data st in
  match err with
  | Some e => (Return (zero, Some e), st)
  | None =>
      match readValue r dec with
      | Panicked p => (Panicked p, st)
      | Return x => (Return (results zero x), st)
      end
  end.

Definition decode_string (v : Json) : error + string := storeString "string" EmptyString v.
Definition decode_bool (v : Json) : error + bool := storeBool "bool" false v.
Definition decode_strings (v : Json) : error + list string :=
  storeSlice "[]string" decode_string v.

Definition stringCommand (ctx : Context) (urlTemplate : string) (st : State)
    : outcome (string * option error) * State :=
  sendAndRead EmptyString decode_string ctx "GET" (url st.1 urlTemplate [wd_id st.1]) EmptyString st.

(** What a failed decoding leaves in a []string: the strings of the array,
    and the empty string for every element that is no string. *)
Definition fill_strings (raw : option Json) : list string :=
  fillSlice (λ v, match v with JString s => s | _ => EmptyString end) raw.

(** func (wd remoteWebDriver) stringsCommand: the receiver is a value, not
    a pointer as for the other commands. The method runs on a copy of the
    driver: what a Quit triggered by the command writes (haveQuit, ctx, id)
    is written to the copy and is gone when the method returns, so the
    caller keeps the driver it had; the requests sent stay sent. *)
Definition stringsCommand (ctx : Context) (urlTemplate : string) (st : State)
    : outcome (list string * option error) * State :=
  let copy := st.1 in
  let '((r, err), st') :=
    send ctx "GET" (url copy urlTemplate [wd_id copy]) EmptyString (copy, st.2) in
  let out :=
    match err with
    | Some e => Return ([], Some e)
    | None =>
        match readValue r decode_strings with
        | Panicked p => Panicked p
        | Return (inl e) => Return (fill_strings (r ≫= Value), Some e)
        | Return (inr v) => Return (v, None)
        end
    end in
  (out, (st.1, st'.2)).

Definition boolCommand (ctx : Context) (urlTemplate : string) (st : State)
    : outcome (bool * option error) * State :=
  sendAndRead false decode_bool ctx "GET" (url st.1 urlTemplate [wd_id st.1]) EmptyString st.

Definition voidCommand (ctx : Context) (urlTemplate : string) (params : option GoValue)
    (st : State) : option error * State :=
  let data :=
    match params with
    | None => inr EmptyString
    | Some p => do! j ← Marshal p; inr (encode j)
    end in
  match data with
  | inl e => (Some e, st)
  | inr data =>
      let '((_, err), st') := send ctx "POST" (url st.1 urlTemplate [wd_id st.1]) data st in
      (err, st')
  end.

(** ** Session manager *)

Definition NewSession (ctx : Context) (st : State) : outcome (string * option error) * State :=
  match Marshal (GoMap [("desiredCapabilities", wd_capabilities st.1)]) with
  | inl e => (Return (EmptyString, Some e), st)
  | inr message =>
      let '((r, err), (wd, w)) := send ctx "POST" (url st.1 "/session" []) (encode message) st in
      match err with
      | Some e => (Return (EmptyString, Some e), (wd, w))
      | None =>
          match r with
          | None => (Panicked nilDereference, (wd, w))
          | Some r => (Return (SessionId r, None), (set_id (SessionId r) wd, w))
          end
      end
  end.

(** The driver NewRemote allocates before it calls NewSession. *)
Definition newDriver (capabilities : GoValue) (executor : string) : remoteWebDriver :=
  mkDriver EmptyString
    (if String.eqb executor EmptyString then defaultExecutor else executor)
    capabilities Background false.

Definition NewRemote (ctx : Context) (capabilities : GoValue) (executor : string) (w : World)
    : outcome (option remoteWebDriver * option error) * World :=
  match NewSession ctx (newDriver capabilities executor, w) with
  | (Panicked p, (_, w)) => (Panicked p, w)
  | (Return (_, Some e), (_, w)) => (Return (None, Some e), w)
  | (Return (_, None), (wd, w)) => (Return (Some wd, None), w)
  end.

Definition Close (ctx : Context) (st : State) : option error * State :=
  let '((_, err), st') :=
    execute ctx "DELETE" (url st.1 "/session/%s/window" [wd_id st.1]) EmptyString st in
  (err, st').

Definition DeleteAllCookies (ctx : Context) (st : State) : option error * State :=
  let '((_, err), st') :=
    execute ctx "DELETE" (url st.1 "/session/%s/cookie" [wd_id st.1]) EmptyString st in
  (err, st').

Definition DeleteCookie (ctx : Context) (name : string) (st : State) : option error * State :=
  let '((_, err), st') :=
    execute ctx "DELETE" (url st.1 "/session/%s/cookie/%s" [wd_id st.1; name]) EmptyString st in
  (err, st').

(** ** Element reference resolver *)

Definition element_store (k : string) (v : Json) (e : element) : error + element :=
  if keyIs "ELEMENT" k then
    do! s ← storeString "element.ELEMENT" (Element e) v; inr (mkElement s)
  else inr e.

Definition decode_element (v : Json) : error + element :=
  storeStruct "element" element_store (mkElement EmptyString) v.

Definition decode_elements (v : Json) : error + list element :=
  storeSlice "[]element" decode_element v.

Definition find (ctx : Context) (by_ value suffix url_ : string) (st : State)
    : (option reply * option error) * State :=
  match Marshal (GoMap [("using", GoString by_); ("value", GoString value)]) with
  | inl e => ((None, Some e), st)
  | inr params =>
      let url_ := if String.eqb url_ EmptyString then "/session/%s/element" else url_ in
      let urlTemplate := url_ +:+ suffix in
      send ctx "POST" (url st.1 urlTemplate [wd_id st.1]) (encode params) st
  end.

Definition decodeElement (r : option reply) : outcome remoteWE :=
  match readValue r decode_element with
  | Panicked p => Panicked p
  | Return (inl err) => Panicked (decodePanic err (r ≫= Value))
  | Return (inr elem) => Return (mkRemoteWE (Element elem))
  end.

Definition decodeElements (r : option reply) : outcome (list remoteWE) :=
  match readValue r decode_elements with
  | Panicked p => Panicked p
  | Return (inl err) => Panicked (decodePanic err (r ≫= Value))
  | Return (inr elems) => Return ((λ elem, mkRemoteWE (Element elem)) <$> elems)
  end.

Definition FindElement (ctx : Context) (by_ value : string) (st : State)
    : outcome (option remoteWE * option error) * State :=
  let '((res, err), st) := find ctx by_ value EmptyString EmptyString st in
  match err with
  | None =>
      match decodeElement res with
      | Panicked p => (Panicked p, st)
      | Return we => (Return (Some we, None), st)
      end
  | Some e => (Return (None, Some e), st)
  end.

Definition FindElements (ctx : Context) (by_ value : string) (st : State)
    : outcome (list remoteWE * option error) * State :=
  let '((res, err), st) := find ctx by_ value "s" EmptyString st in
  match err with
  | None =>
      match decodeElements res with
      | Panicked p => (Panicked p, st)
      | Return wes => (Return (wes, None), st)
      end
  | Some e => (Return ([], Some e), st)
  end.

(** The loop of execScript over args: args[i] is overwritten in place when
    arg, its value, is a *remoteWE. The slice is the caller's, who finds the
    rewritten arguments in it afterwards; the model returns the list. *)
Fixpoint rewriteFrom (i : nat) (rest : list GoValue) (args : list GoValue) : list GoValue :=
  match rest with
  | [] => args
  | arg :: rest' =>
      rewriteFrom (S i) rest'
        (match arg with
         | GoRemoteWE v => <[i := GoElement (mkElement (elem_id v))]> args
         | _ => args
         end)
  end.

Definition rewriteArgs (args : list GoValue) : list GoValue := rewriteFrom 0 args args.

(** execScript up to json.Marshal(params): the bytes posted. *)
Definition execScript_data (script : string) (args : option (list GoValue)) : error + string :=
  let args := match args with None => [] | Some args => args end in
  let args := rewriteArgs args in
  do! params ← Marshal (GoMap [("args", GoSlice args); ("script", GoString script)]);
  inr (encode params).

(** The result res interface{} is kept as the tree it is decoded from; null
    leaves it nil. *)
Definition decode_interface (v : Json) : error + option Json :=
  match v with
  | JNull => inr None
  | _ => inr (Some v)
  end.

Definition execScript (ctx : Context) (script : string) (args : option (list GoValue))
    (suffix : string) (st : State) : outcome (option Json * option error) * State :=
  match execScript_data script args with
  | inl e => (Return (None, Some e), st)
  | inr data =>
      sendAndRead None decode_interface ctx "POST"
        (url st.1 ("/session/%s/execute" +:+ suffix) [wd_id st.1]) data st
  end.

Definition ExecuteScript (ctx : Context) (script : string) (args : option (list GoValue)) :=
  execScript ctx script args EmptyString.

Definition ExecuteScriptAsync (ctx : Context) (script : string) (args : option (list GoValue)) :=
  execScript ctx script args "_async".

(** ** Cookies *)

(** type Cookie struct; Expiry carries the tag json:"-". The field Value is
    [CookieValue] here, next to the Value of reply. *)
Record Cookie : Type := mkCookie {
  Name : string;
  CookieValue : string;
  Path : string;
  Domain : string;
  Secure : bool;
  Expiry : Z
}.

Definition Cookie_zero : Cookie :=
  mkCookie EmptyString EmptyString EmptyString EmptyString false 0.

Definition set_Expiry (n : Z) (c : Cookie) : Cookie :=
  mkCookie (Name c) (CookieValue c) (Path c) (Domain c) (Secure c) n.

Definition Cookie_store (k : string) (v : Json) (c : Cookie) : error + Cookie :=
  if keyIs "name" k then
    do! s ← storeString "Cookie.name" (Name c) v;
    inr (mkCookie s (CookieValue c) (Path c) (Domain c) (Secure c) (Expiry c))
  else if keyIs "value" k then
    do! s ← storeString "Cookie.value" (CookieValue c) v;
    inr (mkCookie (Name c) s (Path c) (Domain c) (Secure c) (Expiry c))
  else if keyIs "path" k then
    do! s ← storeString "Cookie.path" (Path c) v;
    inr (mkCookie (Name c) (CookieValue c) s (Domain c) (Secure c) (Expiry c))
  else if keyIs "domain" k then
    do! s ← storeString "Cookie.domain" (Domain c) v;
    inr (mkCookie (Name c) (CookieValue c) (Path c) s (Secure c) (Expiry c))
  else if keyIs "secure" k then
    do! b ← storeBool "Cookie.secure" (Secure c) v;
    inr (mkCookie (Name c) (CookieValue c) (Path c) (Domain c) b (Expiry c))
  else inr c.

Definition decode_Cookie (v : Json) : error + Cookie :=
  storeStruct "Cookie" Cookie_store Cookie_zero v.

Definition decode_Cookies (v : Json) : error + list Cookie :=
  storeSlice "[]Cookie" decode_Cookie v.

(** What a failed decoding leaves in a []Cookie. *)
Definition fill_Cookies (raw : option Json) : list Cookie :=
  fillSlice (fillStruct Cookie_store Cookie_zero) raw.

(** var expiries []struct { Expiry json.Number }: each element is kept as
    the text of its Number. *)
Definition expiry_store (k : string) (v : Json) (n : string) : error + string :=
  if keyIs "Expiry" k then storeNumber "Expiry" n v else inr n.

Definition decode_expiry (v : Json) : error + string :=
  storeStruct "struct" expiry_store EmptyString v.

Definition decode_expiries (v : Json) : error + list string :=
  storeSlice "[]struct" decode_expiry v.

(** func (n Number) Float64() (float64, error) *)
Definition Float64 (n : string) : option Q := ParseFloat n.

(** uint(f): the fraction is discarded. *)
Definition uint (f : Q) : Z :=
  let t := Z.quot (Qnum f) (Z.pos (Qden f)) in
  if (0 <=? t)%Z && (t <? 2 ^ intBits)%Z then t else uintOutOfRange f.

(** for i, _ := range *cookies { ... }: [n] iterations are left, the next
    index is [i]. *)
Fixpoint expiryLoop (n i : nat) (expiries : list string) (cookies : list Cookie)
    : outcome (list Cookie) :=
  match n with
  | O => Return cookies
  | S n' =>
      match expiries !! i with
      | None => Panicked (indexOutOfRange i (length expiries))
      | Some number =>
          match Float64 number with
          | None => expiryLoop n' (S i) expiries cookies
          | Some expiry =>
              expiryLoop n' (S i) expiries (alter (set_Expiry (uint expiry)) i cookies)
          end
      end
  end.

Definition parseCookieExpiry (cookies : list Cookie) (raw : option Json)
    : outcome (list Cookie) :=
  match UnmarshalRaw raw decode_expiries with
  | inl _ => Return cookies
  | inr expiries => expiryLoop (length cookies) 0 expiries cookies
  end.

Definition GetCookies (ctx : Context) (st : State)
    : outcome (list Cookie * option error) * State :=
  let '((r, err), st') := send ctx "GET" (url st.1 "/session/%s/cookie" [wd_id st.1]) EmptyString st in
  match err with
  | Some e => (Return ([], Some e), st')
  | None =>
      match readValue r decode_Cookies with
      | Panicked p => (Panicked p, st')
      | Return (inl e) => (Return (fill_Cookies (r ≫= Value), Some e), st')
      | Return (inr c) =>
          match parseCookieExpiry c (r ≫= Value) with
          | Panicked p => (Panicked p, st')
          | Return c => (Return (c, None), st')
          end
      end
  end.

(** ** The life of a driver *)

(** What a caller can do with a driver, one operation after the other; the
    methods not listed are stringCommand, stringsCommand, boolCommand or
    voidCommand on a template of their own. [OpCancel] is the caller
    cancelling a context. *)
Inductive Op : Type :=
| OpSetContext (c : Context)
| OpNewSession (c : Context)
| OpQuit (c : Context)
| OpStringCommand (c : Context) (urlTemplate : string)
| OpStringsCommand (c : Context) (urlTemplate : string)
| OpBoolCommand (c : Context) (urlTemplate : string)
| OpVoidCommand (c : Context) (urlTemplate : string) (params : option GoValue)
| OpFindElement (c : Context) (by_ value : string)
| OpFindElements (c : Context) (by_ value : string)
| OpExecScript (c : Context) (script : string) (args : option (list GoValue)) (suffix : string)
| OpGetCookies (c : Context)
| OpClose (c : Context)
| OpDeleteAllCookies (c : Context)
| OpDeleteCookie (c : Context) (name : string)
| OpCancel (token : nat).

(** The state an operation leaves behind, also when it panics. *)
Definition step (st : State) (op : Op) : State :=
  match op with
  | OpSetContext c => SetContext c st
  | OpNewSession c => (NewSession c st).2
  | OpQuit c => (Quit c st).2
  | OpStringCommand c t => (stringCommand c t st).2
  | OpStringsCommand c t => (stringsCommand c t st).2
  | OpBoolCommand c t => (boolCommand c t st).2
  | OpVoidCommand c t p => (voidCommand c t p st).2
  | OpFindElement c b v => (FindElement c b v st).2
  | OpFindElements c b v => (FindElements c b v st).2
  | OpExecScript c s a x => (execScript c s a x st).2
  | OpGetCookies c => (GetCookies c st).2
  | OpClose c => (Close c st).2
  | OpDeleteAllCookies c => (DeleteAllCookies c st).2
  | OpDeleteCookie c n => (DeleteCookie c n st).2
  | OpCancel token => (st.1, mkWorld (sent st.2) (fired st.2 ∪ {[token]}))
  end.

Definition run (ops : list Op) (st : State) : State := foldl step st ops.

End WithPlatform.

(** ** Vocabulary of the statements *)

Section Vocabulary.
Context `{P : Platform}.

(** The driver is the one the command found, or the one a Quit triggered by
    the command has left. *)
Definition driverKept (st st' : State) : Prop :=
  st'.1 = st.1 ∨ ∃ w, st' = (Quit Background (st.1, w)).2.

(** The state [st'] is the one left by a Quit that found the driver [st.1]
    not yet quit and whose delete request succeeded. *)
Definition resetByQuit (st st' : State) : Prop :=
  wd_haveQuit st.1 = false ∧ ∃ ctx w, Quit ctx (st.1, w) = (None, st').

(** The session id is what it was, or such a Quit has emptied it. *)
Definition idKept (st st' : State) : Prop :=
  wd_id st'.1 = wd_id st.1 ∨ (wd_id st'.1 = EmptyString ∧ resetByQuit st st').

(** A text that %q copies between its quotes as it is: printable ASCII
    without the double quote and the backslash. *)
Definition plainChar (c : ascii) : bool :=
  let n := N_of_ascii c in
  (32 <=? n)%N && (n <? 127)%N && negb (n =? 34)%N && negb (n =? 92)%N.

Fixpoint plain (s : string) : bool :=
  match s with
  | EmptyString => true
  | String c s' => plainChar c && plain s'
  end.

(** How execute classifies an answer whose body [buf] it has read. *)
Definition classify (res : Response) (buf : string) : string * option error :=
  if (400 <=? StatusCode res)%Z then
    match Unmarshal buf decode_reply with
    | inl _ => (EmptyString, Some (errorString ("Bad server reply status: " +:+ HTTPStatus res)))
    | inr reply => (EmptyString, Some (pE reply))
    end
  else if String.prefix jsonMIMEType (ContentType res) then
    match Unmarshal buf decode_reply with
    | inl err => (EmptyString, Some err)
    | inr reply =>
        if bool_decide (Status reply ≠ SUCCESS)
        then (EmptyString, Some (pE reply))
        else (buf, None)
    end
  else (buf, None).

(** What execScript does to one argument at the top of the list. *)
Definition rewriteArg (arg : GoValue) : GoValue :=
  match arg with
  | GoRemoteWE v => GoElement (mkElement (elem_id v))
  | _ => arg
  end.

(** The expiry patch of one cookie, given the Number at its position. *)
Definition patchExpiry (number : string) (c : Cookie) : Cookie :=
  match Float64 number with
  | Some f => set_Expiry (uint f) c
  | None => c
  end.

(** The answer to the request of a command is a success with an empty
    body that does not announce JSON, and no check finds the token fired;
    [w1] is the world after the round trip. *)
Definition emptySuccess (wd : remoteWebDriver) (w : World) (method addr data : string)
    (w1 : World) : Prop :=
  NewRequestError method addr = None
  ∧ (∃ res,
       httpClient_Do (newRequest wd method addr data) w = (inr res, w1)
       ∧ ReadAll res = inr EmptyString
       ∧ (StatusCode res < 400)%Z
       ∧ String.prefix jsonMIMEType (ContentType res) = false)
  ∧ Done (wd_ctx wd) w = false
  ∧ Done (wd_ctx wd) w1 = false.

(** The request Quit hands to the client for the driver [wd]. *)
Definition deleteRequest (wd : remoteWebDriver) : Request :=
  mkRequest "DELETE" (url wd "/session/%s" [wd_id wd]) [("Accept", jsonMIMEType)]
    EmptyString Background.

End Vocabulary.

(** ** A platform for the worked examples

    [Demo.platform server] agrees with the Go distribution on the texts the
    examples use: JSON read without \u escapes, texts without bytes above
    0x7f and without control characters other than tab, line feed and
    carriage return, formats made of %s and %%, numbers that are integers
    below 2^53. The server is left to each example. *)
Module Demo.

Definition isSpace (c : ascii) : bool :=
  let n := N_of_ascii c in
  (n =? 32)%N || (n =? 9)%N || (n =? 10)%N || (n =? 13)%N.

Fixpoint skipSpace (s : string) : string :=
  match s with
  | String c s' => if isSpace c then skipSpace s' else s
  | EmptyString => EmptyString
  end.

Definition unescape (c : ascii) : option ascii :=
  let n := N_of_ascii c in
  if (n =? 34)%N then Some c
  else if (n =? 92)%N then Some c
  else if (n =? 47)%N then Some c
  else if (n =? 98)%N then Some "008"%char
  else if (n =? 102)%N then Some "012"%char
  else if (n =? 110)%N then Some "010"%char
  else if (n =? 114)%N then Some "013"%char
  else if (n =? 116)%N then Some "009"%char
  else None.

(** The characters of a string literal after its opening quote. *)
Fixpoint scanString (acc : string) (s : string) : option (string * string) :=
  match s with
  | EmptyString => None
  | String c s' =>
      let n := N_of_ascii c in
      if (n =? 34)%N then Some (acc, s')
      else if (n =? 92)%N then
        match s' with
        | String e s'' =>
            match unescape e with
            | Some x => scanString (acc +:+ String x EmptyString) s''
            | None => None
            end
        | EmptyString => None
        end
      else if (n <? 32)%N then None
      else scanString (acc +:+ String c EmptyString) s'
  end.

Definition isNumberChar (c : ascii) : bool :=
  let n := N_of_ascii c in
  isDigit c || (n =? 45)%N || (n =? 43)%N || (n =? 46)%N || (n =? 101)%N || (n =? 69)%N.

Fixpoint spanNumber (acc : string) (s : string) : string * string :=
  match s with
  | String c s' =>
      if isNumberChar c then spanNumber (acc +:+ String c EmptyString) s' else (acc, s)
  | EmptyString => (acc, EmptyString)
  end.

Definition scanLiteral (word : string) (v : Json) (s : string) : option (Json * string) :=
  if String.prefix word s
  then Some (v, String.substring (String.length word) (String.length s - String.length word) s)
  else None.

(** The elements of an array after the opening bracket (at least one). *)
Fixpoint scanElems (value : string → option (Json * string)) (fuel : nat) (s : string)
    : option (list Json * string) :=
  match fuel with
  | O => None
  | S n =>
      match value s with
      | None => None
      | Some (v, r) =>
          match skipSpace r with
          | String c r' =>
              if (N_of_ascii c =? 44)%N then
                match scanElems value n r' with
                | Some (vs, r'') => Some (v :: vs, r'')
                | None => None
                end
              else if (N_of_ascii c =? 93)%N then Some ([v], r')
              else None
          | EmptyString => None
          end
      end
  end.

(** The members of an object after the opening brace (at least one). *)
Fixpoint scanMembers (value : string → option (Json * string)) (fuel : nat) (s : string)
    : option (list (string * Json) * string) :=
  match fuel with
  | O => None
  | S n =>
      match skipSpace s with
      | String q s1 =>
          if (N_of_ascii q =? 34)%N then
            match scanString EmptyString s1 with
            | Some (k, s2) =>
                match skipSpace s2 with
                | String colon s3 =>
                    if (N_of_ascii colon =? 58)%N then
                      match value s3 with
                      | Some (v, r) =>
                          match skipSpace r with
                          | String c r' =>
                              if (N_of_ascii c =? 44)%N then
                                match scanMembers value n r' with
                                | Some (ms, r'') => Some ((k, v) :: ms, r'')
                                | None => None
                                end
                              else if (N_of_ascii c =? 125)%N then Some ([(k, v)], r')
                              else None
                          | EmptyString => None
                          end
                      | None => None
                      end
                    else None
                | EmptyString => None
                end
            | None => None
            end
          else None
      | EmptyString => None
      end
  end.

Fixpoint scanValue (fuel : nat) (s : string) : option (Json * string) :=
  match fuel with
  | O => None
  | S n =>
      match skipSpace s with
      | EmptyString => None
      | String c rest =>
          let k := N_of_ascii c in
          if (k =? 123)%N then
            match skipSpace rest with
            | String c' rest' =>
                if (N_of_ascii c' =? 125)%N then Some (JObject [], rest')
                else
                  match scanMembers (scanValue n) n rest with
                  | Some (ms, r) => Some (JObject ms, r)
                  | None => None
                  end
            | EmptyString => None
            end
          else if (k =? 91)%N then
            match skipSpace rest with
            | String c' rest' =>
                if (N_of_ascii c' =? 93)%N then Some (JArray [], rest')
                else
                  match scanElems (scanValue n) n rest with
                  | Some (vs, r) => Some (JArray vs, r)
                  | None => None
                  end
            | EmptyString => None
            end
          else if (k =? 34)%N then
            match scanString EmptyString rest with
            | Some (str, r) => Some (JString str, r)
            | None => None
            end
          else if (k =? 116)%N then scanLiteral "true" (JBool true) (String c rest)
          else if (k =? 102)%N then scanLiteral "false" (JBool false) (String c rest)
          else if (k =? 110)%N then scanLiteral "null" JNull (String c rest)
          else
            let '(lit, r) := spanNumber EmptyString (String c rest) in
            if isValidNumber lit then Some (JNumber lit, r) else None
      end
  end.

Definition scan (s : string) : option Json :=
  match scanValue (S (String.length s)) s with
  | Some (v, r) =>
      match skipSpace r with
      | EmptyString => Some v
      | _ => None
      end
  | None => None
  end.

Definition escapeJSON (c : ascii) : string :=
  let n := N_of_ascii c in
  if (n =? 34)%N then "\" +:+ dquote
  else if (n =? 92)%N then "\\"
  else if (n =? 10)%N then "\n"
  else if (n =? 13)%N then "\r"
  else if (n =? 9)%N then "\t"
  else if (n =? 60)%N then "\u003c"
  else if (n =? 62)%N then "\u003e"
  else if (n =? 38)%N then "\u0026"
  else String c EmptyString.

Fixpoint encodeString (s : string) : string :=
  match s with
  | EmptyString => EmptyString
  | String c s' => escapeJSON c +:+ encodeString s'
  end.

Fixpoint joinWith (sep : string) (xs : list string) : string :=
  match xs with
  | [] => EmptyString
  | [x] => x
  | x :: xs' => x +:+ sep +:+ joinWith sep xs'
  end.

Fixpoint encode (v : Json) : string :=
  match v with
  | JNull => "null"
  | JBool true => "true"
  | JBool false => "false"
  | JNumber lit => lit
  | JString s => dquote +:+ encodeString s +:+ dquote
  | JArray vs => "[" +:+ joinWith "," (map encode vs) +:+ "]"
  | JObject ms =>
      "{" +:+
      joinWith ","
        (map (λ kv : string * Json,
                dquote +:+ encodeString kv.1 +:+ dquote +:+ ":" +:+ encode kv.2) ms)
      +:+ "}"
  end.

Definition upper (c : ascii) : ascii :=
  let n := N_of_ascii c in
  if (97 <=? n)%N && (n <=? 122)%N then ascii_of_N (n - 32) else c.

Fixpoint foldName (s : string) : string :=
  match s with
  | EmptyString => EmptyString
  | String c s' => String (upper c) (foldName s')
  end.

Fixpoint Sprintf (format : string) (args : list string) : string :=
  match format with
  | EmptyString => EmptyString
  | String c f' =>
      if (N_of_ascii c =? 37)%N then
        match f' with
        | String v f'' =>
            if (N_of_ascii v =? 115)%N then
              match args with
              | a :: args' => a +:+ Sprintf f'' args'
              | [] => "%!s(MISSING)" +:+ Sprintf f'' []
              end
            else String v (Sprintf f'' args)
        | EmptyString => "%!(NOVERB)"
        end
      else String c (Sprintf f' args)
  end.

Definition ParseFloat (s : string) : option Q :=
  match parseDecimal s with
  | Some n => if (Z.abs n <? 2 ^ 53)%Z then Some (inject_Z n) else None
  | None => None
  end.

Definition platform (server : World → Request → Exchange) : Platform :=
  Build_Platform scan encode foldName (λ s, s) Sprintf ParseFloat 64 (λ _, 0%Z) (λ _ _, None)
    server.

(** A server that gives the same answer to every request and cancels
    nothing. *)
Definition always (res : Response) : World → Request → Exchange :=
  λ _ _, mkExchange ∅ (Answered res).

Definition ok (contentType body : string) : Response :=
  mkResponse "200 OK" 200 contentType (inr body).

(** A server that answers every request with [res] while the caller
    cancels [token]. *)
Definition cancelling (token : nat) (res : Response) : World → Request → Exchange :=
  λ _ _, mkExchange {[token]} (Answered res).

(** A server that answers the first [n] requests with a redirect and the
    next one with [res]: a chain of [n] redirects. The upcoming request is
    a GET without header. *)
Definition redirecting (n : nat) (res : Response) : World → Request → Exchange :=
  λ w r,
    mkExchange ∅
      (if length (sent w) <? n
       then Redirected (mkRequest "GET" (URL r +:+ "/next") [] EmptyString (reqCtx r))
       else Answered res).

(** JSON texts are written with the apostrophe for the double quote. *)
Fixpoint text (s : string) : string :=
  match s with
  | EmptyString => EmptyString
  | String c s' =>
      String (if (N_of_ascii c =? 39)%N then "034"%char else c) (text s')
  end.

(** A driver with the session s1, and the world before any request. *)
Definition driver : remoteWebDriver := mkDriver "s1" "http://h" GoNil Background false.
Definition world : World := mkWorld [] ∅.

End Demo.

(** ** Further operations of remote.go *)

Section MoreOperations.
Context `{P : Platform}.

(** Into a nil Capabilities (map[string]interface{}): an object allocates
    the map and stores its members in the order of the text, a later
    member replacing an earlier one of the same key; null leaves the map
    nil. The values are kept as trees. *)
Definition decode_Capabilities (v : Json) : error + option (gmap string Json) :=
  match v with
  | JNull => inr None
  | JObject ms => inr (Some (foldl (λ m kv, <[kv.1 := kv.2]> m) ∅ ms))
  | _ => inl (UnmarshalTypeError "Capabilities")
  end.

(** Capabilities calls r.readValue(&v) and drops the error it returns. *)
Definition Capabilities (ctx : Context) (st : State)
    : outcome (option (gmap string Json) * option error) * State :=
  let '((r, err), st') := send ctx "GET" (url st.1 "/session/%s" [wd_id st.1]) EmptyString st in
  match err with
  | Some e => (Return (None, Some e), st')
  | None =>
      match readValue r decode_Capabilities with
      | Panicked p => (Panicked p, st')
      | Return x => (Return ((results None x).1, None), st')
      end
  end.

(** The range clause over a string yields, at the byte offset where a rune
    starts, the rune; string(c) is its UTF-8 text. For a byte below 0x80
    the rune is the byte. For the other bytes [runeHigh] stands for
    utf8.DecodeRuneInString and the conversion: given the rest of the
    string, the text of string(c) and the number of bytes of the rune after
    its first. *)
Definition rangeRune (runeHigh : string → string * nat) (s : string) : string * nat :=
  match s with
  | EmptyString => (EmptyString, 0)
  | String b _ =>
      if (N_of_ascii b <? 128)%N then (String b EmptyString, 0) else runeHigh s
  end.

(** for i, c := range keys { chars[i] = string(c) }: [i] is the offset of
    the first byte of [rest], [skip] the number of bytes still belonging to
    the rune read last. *)
Fixpoint rangeKeys (runeHigh : string → string * nat) (skip i : nat) (rest : string)
    (chars : list string) : list string :=
  match rest with
  | EmptyString => chars
  | String _ rest' =>
      match skip with
      | S skip' => rangeKeys runeHigh skip' (S i) rest' chars
      | O =>
          let '(c, extra) := rangeRune runeHigh rest in
          rangeKeys runeHigh extra (S i) rest' (<[i := c]> chars)
      end
  end.

(** chars := make([]string, len(keys)), filled by the loop. *)
Definition keyChars (runeHigh : string → string * nat) (keys : string) : list string :=
  rangeKeys runeHigh 0 0 keys (replicate (String.length keys) EmptyString).

(** func (elem *remoteWE) SendKeys *)
Definition SendKeys (runeHigh : string → string * nat) (elem : remoteWE) (ctx : Context)
    (keys : string) (st : State) : option error * State :=
  let params := GoMap [("value", GoSlice (GoString <$> keyChars runeHigh keys))] in
  let urltmpl := Sprintf "/session/%%s/element/%s/value" [elem_id elem] in
  voidCommand ctx urltmpl (Some params) st.

(** A request carries the Accept header of the protocol. *)
Definition hasAccept (r : Request) : Prop := ("Accept", jsonMIMEType) ∈ Header r.

(** The operations that read or write the driver without a command. *)
Definition isSetContext (op : Op) : bool :=
  match op with
  | OpSetContext _ => true
  | _ => false
  end.

Definition isCancel (op : Op) : bool :=
  match op with
  | OpCancel _ => true
  | _ => false
  end.

(** No value that json.Marshal rejects occurs in [v], at any depth. *)
Fixpoint encodable (v : GoValue) : bool :=
  match v with
  | GoSlice vs => forallb encodable vs
  | GoMap ms => forallb (λ kv, encodable kv.2) ms
  | GoUnsupported => false
  | _ => true
  end.

(** The cookie without its expiry. *)
Definition withoutExpiry (c : Cookie) : Cookie := set_Expiry 0 c.

End MoreOperations.

(** * Properties *)

Section Executor.
Context `{P : Platform}.

(** ** The two equations of the source *)

Lemma Done_Background (w : World) : Done Background w = false.
Proof. reflexivity. Qed.

(** With the background context in wd.ctx, execute is its body: neither
    check fires, whatever Quit is. *)
Lemma execute_gen_Background Q ctx method url data wd w :
  wd_ctx wd = Background →
  execute_gen Q ctx method url data (wd, w) =
  ((execute_body wd method url data w).1, (wd, (execute_body wd method url data w).2)).
Proof.
  intros Hctx. unfold execute_gen. rewrite Hctx. simpl.
  by destruct (execute_body wd method url data w) as [[buf err] w1].
Qed.

Lemma execute_unfold ctx method url data st :
  execute ctx method url data st = execute_gen Quit ctx method url data st.
Proof. reflexivity. Qed.

Lemma Quit_unfold ctx st : Quit ctx st = Quit_gen execute ctx st.
Proof.
  destruct st as [wd w]. unfold Quit, Quit_gen, execute, execute_in_Quit.
  destruct (wd_haveQuit wd); [done|].
  by rewrite !execute_gen_Background.
Qed.

(** The driver Quit works on once it has set the flag and the context. *)
Lemma Quit_done ctx wd w :
  wd_haveQuit wd = true → Quit ctx (wd, w) = (None, (wd, w)).
Proof. intros H. unfold Quit, Quit_gen. by rewrite H. Qed.

Lemma Quit_first ctx wd w :
  wd_haveQuit wd = false →
  let wd1 := set_ctx Background (set_haveQuit true wd) in
  let body := execute_body wd1 "DELETE" (url wd1 "/session/%s" [wd_id wd1]) EmptyString w in
  Quit ctx (wd, w) =
  match body.1.2 with
  | None => (None, (set_id EmptyString wd1, body.2))
  | Some e => (Some e, (wd1, body.2))
  end.
Proof.
  intros H. unfold Quit, Quit_gen, execute_in_Quit. rewrite H.
  rewrite execute_gen_Background by done. simpl.
  by destruct (execute_body _ _ _ _ _) as [[buf [e|]] w1].
Qed.

Lemma execute_cases ctx method url data wd w :
  let body := execute_body wd method url data w in
  execute ctx method url data (wd, w) =
  if Done (wd_ctx wd) w
  then ((EmptyString, Some ErrCanceled), (Quit Background (wd, w)).2)
  else if Done (wd_ctx wd) body.2
       then ((body.1.1, Some ErrCanceled), (Quit Background (wd, body.2)).2)
       else (body.1, (wd, body.2)).
Proof.
  cbv zeta. unfold execute, execute_gen.
  destruct (Done (wd_ctx wd) w).
  - by destruct (Quit Background (wd, w)).
  - destruct (execute_body wd method url data w) as [[buf err] w1]. cbn [fst snd].
    destruct (Done (wd_ctx wd) w1); [|done].
    by destruct (Quit Background (wd, w1)).
Qed.

(** ** What a command may do to the driver *)

Lemma Quit_haveQuit ctx st : wd_haveQuit (Quit ctx st).2.1 = true.
Proof.
  destruct st as [wd w]. destruct (wd_haveQuit wd) eqn:H.
  - by rewrite Quit_done.
  - rewrite Quit_first by done. simpl.
    by destruct (execute_body _ _ _ _ _) as [[buf [e|]] w1].
Qed.

Lemma Quit_haveQuit_mono ctx st :
  wd_haveQuit st.1 = true → (Quit ctx st).2 = st.
Proof. destruct st as [wd w]. intros H. by rewrite Quit_done. Qed.

Lemma execute_driverKept ctx method url data st :
  driverKept st (execute ctx method url data st).2.
Proof.
  destruct st as [wd w]. rewrite execute_cases. cbv zeta.
  destruct (Done (wd_ctx wd) w); [right; by eexists|].
  destruct (Done (wd_ctx wd) _); [right; by eexists|by left].
Qed.

Lemma send_state ctx method url data st :
  (send ctx method url data st).2 = (execute ctx method url data st).2.
Proof.
  unfold send. destruct (execute ctx method url data st) as [[buf [e|]] st']; [done|].
  simpl. case_bool_decide; [|done]. by destruct (Unmarshal buf decode_reply_ptr).
Qed.

Lemma sendAndRead_state {T} (zero : T) dec ctx method url data st :
  (sendAndRead zero dec ctx method url data st).2 = (execute ctx method url data st).2.
Proof.
  unfold sendAndRead. rewrite <- send_state.
  destruct (send ctx method url data st) as [[r [e|]] st']; [done|].
  by destruct (readValue r dec).
Qed.

(** stringsCommand hands back the driver it was called on and the world
    its command has left. *)
Lemma stringsCommand_state ctx t st :
  (stringsCommand ctx t st).2
  = (st.1, (execute ctx "GET" (url st.1 t [wd_id st.1]) EmptyString st).2.2).
Proof.
  unfold stringsCommand. cbv zeta. destruct st as [wd w]. cbn [fst snd].
  rewrite <- send_state.
  by destruct (send _ _ _ _ _) as [[r err] st'].
Qed.

Lemma driverKept_refl st : driverKept st st.
Proof. by left. Qed.

Lemma driverKept_haveQuit st st' :
  driverKept st st' → wd_haveQuit st.1 = true → wd_haveQuit st'.1 = true.
Proof.
  intros [-> | [w ->]] H; [done|]. apply Quit_haveQuit.
Qed.

Lemma driverKept_idKept st st' : driverKept st st' → idKept st st'.
Proof.
  intros [Heq | [w ->]]; [left; by rewrite Heq|].
  destruct st as [wd w0]. cbn [fst snd].
  destruct (wd_haveQuit wd) eqn:HQ.
  - left. by rewrite Quit_done.
  - pose proof (Quit_first Background wd w HQ) as HF. cbv zeta in HF.
    destruct (execute_body _ _ _ _ _) as [[buf [e|]] w1] eqn:HB; cbn [fst snd] in HF.
    + left. by rewrite HF.
    + right. split; [by rewrite HF|]. split; [done|].
      exists Background, w. by rewrite HF.
Qed.

Lemma voidCommand_driverKept ctx t p st : driverKept st (voidCommand ctx t p st).2.
Proof.
  unfold voidCommand.
  destruct (match p with None => _ | Some _ => _ end) as [e|data]; [apply driverKept_refl|].
  pose proof (send_state ctx "POST" (url st.1 t [wd_id st.1]) data st) as HS.
  pose proof (execute_driverKept ctx "POST" (url st.1 t [wd_id st.1]) data st) as HK.
  destruct (send _ _ _ _ _) as [[r err] st']. cbn [snd] in *. by rewrite HS.
Qed.

Lemma find_driverKept ctx b v sfx u st : driverKept st (find ctx b v sfx u st).2.
Proof.
  unfold find. cbn [Marshal bindE].
  rewrite send_state. apply execute_driverKept.
Qed.

Lemma FindElement_state ctx b v st :
  (FindElement ctx b v st).2 = (find ctx b v EmptyString EmptyString st).2.
Proof.
  unfold FindElement.
  destruct (find _ _ _ _ _ _) as [[res [e|]] st']; [done|].
  by destruct (decodeElement res).
Qed.

Lemma FindElements_state ctx b v st :
  (FindElements ctx b v st).2 = (find ctx b v "s" EmptyString st).2.
Proof.
  unfold FindElements.
  destruct (find _ _ _ _ _ _) as [[res [e|]] st']; [done|].
  by destruct (decodeElements res).
Qed.

Lemma execScript_driverKept ctx script args sfx st :
  driverKept st (execScript ctx script args sfx st).2.
Proof.
  unfold execScript. destruct (execScript_data script args) as [e|data].
  - apply driverKept_refl.
  - rewrite sendAndRead_state. apply execute_driverKept.
Qed.

Lemma GetCookies_state ctx st :
  (GetCookies ctx st).2 =
  (execute ctx "GET" (url st.1 "/session/%s/cookie" [wd_id st.1]) EmptyString st).2.
Proof.
  unfold GetCookies. rewrite <- send_state.
  destruct (send _ _ _ _ _) as [[r [e|]] st']; [done|].
  destruct (readValue r decode_Cookies) as [[e|c]|p]; try done.
  by destruct (parseCookieExpiry c _).
Qed.

Lemma NewSession_cases ctx st :
  let out := NewSession ctx st in
  (∃ sid, out.1 = Return (sid, None) ∧ ∃ st', driverKept st st' ∧ out.2 = (set_id sid st'.1, st'.2))
  ∨ ((∀ sid, out.1 ≠ Return (sid, None)) ∧ driverKept st out.2).
Proof.
  cbv zeta. unfold NewSession.
  destruct (Marshal _) as [e|message].
  { right. split; [done|apply driverKept_refl]. }
  pose proof (send_state ctx "POST" (url st.1 "/session" []) (encode message) st) as HS.
  pose proof (execute_driverKept ctx "POST" (url st.1 "/session" []) (encode message) st) as HK.
  rewrite <- HS in HK.
  destruct (send _ _ _ _ _) as [[r [e|]] [wd w]]; cbn [fst snd] in *.
  { right. by split. }
  destruct r as [r|].
  - left. exists (SessionId r). split; [done|]. by exists (wd, w).
  - right. by split.
Qed.

(** Every operation but NewSession and SetContext keeps the driver, up to
    a Quit it triggers. *)
Lemma step_driverKept op st :
  match op with
  | OpSetContext _ | OpNewSession _ => True
  | _ => driverKept st (step st op)
  end.
Proof.
  destruct op; try done; cbn [step].
  - right. by exists st.2; destruct st.
  - unfold stringCommand. rewrite sendAndRead_state. apply execute_driverKept.
  - left. by rewrite stringsCommand_state.
  - unfold boolCommand. rewrite sendAndRead_state. apply execute_driverKept.
  - apply voidCommand_driverKept.
  - rewrite FindElement_state. apply find_driverKept.
  - rewrite FindElements_state. apply find_driverKept.
  - apply execScript_driverKept.
  - rewrite GetCookies_state. apply execute_driverKept.
  - unfold Close.
    pose proof (execute_driverKept c "DELETE" (url st.1 "/session/%s/window" [wd_id st.1]) EmptyString st).
    by destruct (execute _ _ _ _ _) as [[? ?] ?].
  - unfold DeleteAllCookies.
    pose proof (execute_driverKept c "DELETE" (url st.1 "/session/%s/cookie" [wd_id st.1]) EmptyString st).
    by destruct (execute _ _ _ _ _) as [[? ?] ?].
  - unfold DeleteCookie.
    pose proof (execute_driverKept c "DELETE" (url st.1 "/session/%s/cookie/%s" [wd_id st.1; name]) EmptyString st).
    by destruct (execute _ _ _ _ _) as [[? ?] ?].
  - by left.
Qed.

Lemma step_haveQuit op st :
  wd_haveQuit st.1 = true → wd_haveQuit (step st op).1 = true.
Proof.
  intros H. pose proof (step_driverKept op st) as HK.
  destruct op; try (by eapply driverKept_haveQuit).
  - done.
  - cbn [step]. destruct (NewSession_cases c st) as [(sid & _ & st' & HK' & ->) | [_ HK']].
    + cbn [fst]. by eapply (driverKept_haveQuit st st').
    + by eapply driverKept_haveQuit.
Qed.

Lemma run_haveQuit ops st :
  wd_haveQuit st.1 = true → wd_haveQuit (run ops st).1 = true.
Proof.
  revert st. induction ops as [|op ops IH]; intros st H; [done|].
  apply IH. by apply step_haveQuit.
Qed.

(** ** The requests of a command, and its errors *)

Lemma clientDo_S fuel via req w :
  clientDo (S fuel) via req w =
  match hop via req w with
  | Finished result w1 => (result, w1)
  | Follow via' next w1 => clientDo fuel via' next w1
  end.
Proof. reflexivity. Qed.

Lemma hop_Finished via req w result w1 :
  hop via req w = Finished result w1 →
  sent w1 = sent w ++ [req] ∧ result ≠ inl ErrCanceled.
Proof.
  unfold hop. destruct (answer (RoundTrip w req)) as [text|next|res].
  - intros [= <- <-]. done.
  - destruct (CheckRedirect next (via ++ [req])) as [[e|] next']; [|done].
    intros [= <- <-]. done.
  - intros [= <- <-]. done.
Qed.

Lemma hop_Follow via req w via' next' w1 :
  hop via req w = Follow via' next' w1 →
  sent w1 = sent w ++ [req] ∧ via' = via ++ [req] ∧ length via' < 10
  ∧ ("Accept", jsonMIMEType) ∈ Header next'
  ∧ ∃ next, answer (RoundTrip w req) = Redirected next.
Proof.
  unfold hop. destruct (answer (RoundTrip w req)) as [text|next|res]; [done| |done].
  unfold CheckRedirect. case_bool_decide; [done|].
  intros [= <- <- <-]. repeat split; [lia| |by eexists].
  cbn [Header_Add Header]. set_solver.
Qed.

Lemma clientDo_sent fuel via req w :
  ∃ rest, sent (clientDo fuel via req w).2 = sent w ++ req :: rest.
Proof.
  revert via req w. induction fuel as [|fuel IH]; intros via req w; cbn [clientDo].
  - destruct (hop via req w) as [result w1|via' next' w1] eqn:Hhop; cbn [fst snd].
    + apply hop_Finished in Hhop as [Hs _]. exists []. by rewrite Hs.
    + apply hop_Follow in Hhop as [Hs _]. exists []. by rewrite Hs.
  - destruct (hop via req w) as [result w1|via' next' w1] eqn:Hhop; cbn [fst snd].
    + apply hop_Finished in Hhop as [Hs _]. exists []. by rewrite Hs.
    + apply hop_Follow in Hhop as [Hs _].
      destruct (IH via' next' w1) as [rest Hrest].
      exists (next' :: rest). rewrite Hrest, Hs. by rewrite <- app_assoc.
Qed.

Lemma clientDo_not_canceled fuel via req w :
  (clientDo fuel via req w).1 ≠ inl ErrCanceled.
Proof.
  revert via req w. induction fuel as [|fuel IH]; intros via req w; cbn [clientDo].
  - destruct (hop via req w) as [result w1|via' next' w1] eqn:Hhop; [|done].
    by apply hop_Finished in Hhop as [_ ?].
  - destruct (hop via req w) as [result w1|via' next' w1] eqn:Hhop; [|apply IH].
    by apply hop_Finished in Hhop as [_ ?].
Qed.

Lemma storeMembers_error {T} (store : string → Json → T → error + T) (bad : error) :
  (∀ k v t, store k v t ≠ inl bad) →
  ∀ ms t, storeMembers store ms t ≠ inl bad.
Proof.
  intros Hs ms. induction ms as [|[k v] ms IH]; intros t; cbn [storeMembers]; [done|].
  specialize (Hs k v t). unfold bindE. destruct (store k v t) as [e|t']; [congruence|apply IH].
Qed.

Lemma decode_reply_not_canceled v : decode_reply v ≠ inl ErrCanceled.
Proof.
  unfold decode_reply, storeStruct. destruct v; try done.
  apply storeMembers_error. intros k j r. unfold reply_store, bindE.
  repeat case_match; try done; subst;
    repeat match goal with
    | H : storeString _ _ ?j = inl _ |- _ => destruct j; simplify_eq/=
    | H : storeInt _ _ ?j = inl _ |- _ => destruct j; cbn in H; try case_match; simplify_eq/=
    end; done.
Qed.

Lemma execute_body_not_canceled wd method url data w :
  (execute_body wd method url data w).1.2 ≠ Some ErrCanceled.
Proof.
  unfold execute_body. destruct (NewRequestError method url); [done|].
  unfold httpClient_Do.
  pose proof (clientDo_not_canceled 9 [] (newRequest wd method url data) w) as HC.
  destruct (clientDo _ _ _ _) as [[err|res] w1]; cbn [fst snd] in *; [congruence|].
  destruct (ReadAll res); [done|].
  pose proof (decode_reply_not_canceled) as HD.
  unfold Unmarshal, pE. destruct (StatusCode res >=? 400)%Z eqn:?.
  all: repeat case_match; cbn [fst snd]; try done; try congruence.
  all: subst; try (exfalso; eapply HD; eassumption).
Qed.

Lemma execute_body_sent wd method url data w :
  NewRequestError method url = None →
  ∃ rest,
    sent (execute_body wd method url data w).2 =
    sent w ++ newRequest wd method url data :: rest.
Proof.
  intros HN. unfold execute_body. rewrite HN. unfold httpClient_Do.
  match goal with |- context [clientDo 9 [] ?r w] =>
    destruct (clientDo_sent 9 [] r w) as [rest Hrest]; exists rest;
    destruct (clientDo 9 [] r w) as [[err|res] w1] end; cbn [fst snd] in *; [done|].
  repeat case_match; done.
Qed.

End Executor.

Section Session.
Context `{P : Platform}.

(** X21. Once the caller has invoked Quit on a driver, whatever the caller
    does with the driver afterwards, a call of Quit returns nil and leaves
    the driver and the world as they are: nothing is sent. The Quit that a
    cancelled command triggers is such a call, so a command run after the
    first Quit leaves the world it found or the world its own round trip
    has made. A Quit that sends anything is one that finds the flag
    haveQuit unset and sets it, and the flag of the caller's driver, once
    set, stays set. *)
Theorem Quit_idempotent (ctx ctx' : Context) (ops : list Op) (st : State) :
  let st2 := run ops (Quit ctx st).2 in
  Quit ctx' st2 = (None, st2)
  ∧ (∀ c method url data,
       let out := execute c method url data st2 in
       out.2.1 = st2.1
       ∧ (out.2.2 = st2.2 ∨ out.2.2 = (execute_body st2.1 method url data st2.2).2))
  ∧ (sent (Quit ctx st).2.2 ≠ sent st.2 →
       wd_haveQuit st.1 = false ∧ wd_haveQuit (Quit ctx st).2.1 = true)
  ∧ (wd_haveQuit st.1 = true → wd_haveQuit (run ops st).1 = true).
Proof.
  cbv zeta.
  assert (wd_haveQuit (run ops (Quit ctx st).2).1 = true) as HQ
    by apply run_haveQuit, Quit_haveQuit.
  split; [|split; [|split]].
  - destruct (run ops (Quit ctx st).2) as [wd w]. by apply Quit_done.
  - destruct (run ops (Quit ctx st).2) as [wd w]. cbn [fst snd] in *.
    intros c method url data. rewrite execute_cases. cbv zeta.
    destruct (Done (wd_ctx wd) w).
    { rewrite Quit_done by done. cbn [fst snd]. auto. }
    destruct (Done (wd_ctx wd) _).
    { rewrite Quit_done by done. cbn [fst snd]. auto. }
    cbn [fst snd]. auto.
  - intros Hsent. split; [|apply Quit_haveQuit].
    destruct (wd_haveQuit st.1) eqn:H; [|done].
    destruct Hsent. by rewrite Quit_haveQuit_mono.
  - apply run_haveQuit.
Qed.

(** C2. The token of the driver is read before the request is built and
    again when the body of execute has returned. When either check finds
    it fired, execute returns ErrCanceled and the state is the one left by
    Quit(context.Background()) in the world of that check: for the first
    check that is the world execute found, no request of the command
    having been sent. If the driver had not quit before, that Quit runs
    with the background context in wd.ctx, is not itself cancelled, and
    its delete request is the next request on the wire. *)
Theorem execute_cancellation_guard ctx method addr data wd w :
  let body := execute_body wd method addr data w in
  let seen := if Done (wd_ctx wd) w then w else body.2 in
  let out := execute ctx method addr data (wd, w) in
  let quit := Quit Background (wd, seen) in
  Done (wd_ctx wd) w = true ∨ Done (wd_ctx wd) body.2 = true →
  out.1.2 = Some ErrCanceled
  ∧ out.2 = quit.2
  ∧ (Done (wd_ctx wd) w = true → out.1.1 = EmptyString ∧ seen = w)
  ∧ (wd_haveQuit wd = false →
       wd_ctx out.2.1 = Background
       ∧ wd_haveQuit out.2.1 = true
       ∧ quit.1 ≠ Some ErrCanceled
       ∧ (NewRequestError "DELETE" (URL (deleteRequest wd)) = None →
            ∃ rest, sent out.2.2 = sent seen ++ deleteRequest wd :: rest)).
Proof.
  cbv zeta. intros Hfired. rewrite execute_cases. cbv zeta.
  set (body := execute_body wd method addr data w) in *.
  set (seen := if Done (wd_ctx wd) w then w else body.2).
  assert ((if Done (wd_ctx wd) w
           then ((EmptyString, Some ErrCanceled), (Quit Background (wd, w)).2)
           else if Done (wd_ctx wd) body.2
                then ((body.1.1, Some ErrCanceled), (Quit Background (wd, body.2)).2)
                else (body.1, (wd, body.2)))
          = ((if Done (wd_ctx wd) w then EmptyString else body.1.1, Some ErrCanceled),
             (Quit Background (wd, seen)).2)) as Hout.
  { subst seen. destruct (Done (wd_ctx wd) w); [done|].
    destruct Hfired as [?|Hb]; [done|]. by rewrite Hb. }
  rewrite Hout. cbn [fst snd]. split; [done|]. split; [done|]. split.
  { intros Hw. subst seen. by rewrite Hw. }
  intros HQ. clear Hfired Hout. clearbody seen. clear body.
  pose proof (Quit_first Background wd seen HQ) as HF. cbv zeta in HF.
  pose proof (execute_body_not_canceled (set_ctx Background (set_haveQuit true wd)) "DELETE"
    (url (set_ctx Background (set_haveQuit true wd)) "/session/%s"
       [wd_id (set_ctx Background (set_haveQuit true wd))]) EmptyString seen) as HN.
  rewrite HF.
  split; [|split; [|split]].
  - by destruct (execute_body _ _ _ _ _) as [[buf [e|]] w1].
  - by destruct (execute_body _ _ _ _ _) as [[buf [e|]] w1].
  - destruct (execute_body _ _ _ _ _) as [[buf [e|]] w1]; cbn [fst snd] in *; congruence.
  - intros HR.
    destruct (execute_body_sent (set_ctx Background (set_haveQuit true wd)) "DELETE"
      (url (set_ctx Background (set_haveQuit true wd)) "/session/%s"
         [wd_id (set_ctx Background (set_haveQuit true wd))]) EmptyString seen HR) as [rest Hrest].
    exists rest.
    by destruct (execute_body _ _ _ _ _) as [[buf [e|]] w1].
Qed.

(** C5. The id of a new driver is empty. NewSession, when it succeeds,
    writes the id it returns. Quit empties the id when it finds the driver
    not yet quit and its delete request succeeds, and leaves the id alone
    otherwise. Every other operation, and a NewSession that fails, leaves
    the id as it is, unless the operation is cancelled and the Quit this
    triggers empties it. *)
Theorem session_id_invariant :
  (∀ capabilities executor, wd_id (newDriver capabilities executor) = EmptyString)
  ∧ (∀ ctx st,
       match NewSession ctx st with
       | (Return (sid, None), st') => wd_id st'.1 = sid
       | (_, st') => idKept st st'
       end)
  ∧ (∀ ctx st,
       match Quit ctx st with
       | (None, st') =>
           if wd_haveQuit st.1 then wd_id st'.1 = wd_id st.1 else wd_id st'.1 = EmptyString
       | (Some _, st') => wd_id st'.1 = wd_id st.1
       end)
  ∧ (∀ op st, (∀ c, op ≠ OpNewSession c) → idKept st (step st op)).
Proof.
  split; [done|]. split; [|split].
  - intros ctx st.
    destruct (NewSession_cases ctx st) as [(sid & H1 & st' & HK & H2) | [H1 HK]];
      cbv zeta in *.
    + destruct (NewSession ctx st) as [o st'']. cbn [fst snd] in *. subst. done.
    + destruct (NewSession ctx st) as [[[sid [e|]]|p] st'']; cbn [fst snd] in *;
        try (by apply driverKept_idKept).
      by destruct (H1 sid).
  - intros ctx [wd w]. cbn [fst]. destruct (wd_haveQuit wd) eqn:HQ.
    + by rewrite Quit_done.
    + rewrite Quit_first by done. cbv zeta.
      by destruct (execute_body _ _ _ _ _) as [[buf [e|]] w1].
  - intros op st Hop. pose proof (step_driverKept op st) as HK.
    destruct op; try (by apply driverKept_idKept).
    + by left.
    + by destruct (Hop c).
Qed.

End Session.

Section Replies.
Context `{P : Platform}.

Lemma escapeASCII_plain c : plainChar c = true → escapeASCII c = String c EmptyString.
Proof.
  unfold plainChar, escapeASCII. cbv zeta. intros H.
  repeat (apply andb_prop in H as [H ?]).
  destruct (N_of_ascii c =? 34)%N; [done|].
  destruct (N_of_ascii c =? 92)%N; [done|].
  rewrite H. by destruct (N_of_ascii c <? 127)%N.
Qed.

Lemma quoteFrom_plain s : plain s = true → quoteFrom EmptyString s = s.
Proof.
  induction s as [|c s IH]; [done|]. cbn [plain quoteFrom]. intros H.
  apply andb_prop in H as [Hc Hs].
  rewrite escapeASCII_plain by done. rewrite IH by done.
  assert ((128 <=? N_of_ascii c)%N = false) as ->; [|done].
  unfold plainChar in Hc. cbv zeta in Hc.
  repeat (apply andb_prop in Hc as [Hc ?]).
  apply N.leb_gt. apply N.ltb_lt in H1. lia.
Qed.

Lemma Quote_plain s : plain s = true → Quote s = dquote +:+ s +:+ dquote.
Proof. intros H. unfold Quote. by rewrite quoteFrom_plain. Qed.

(** What execute does with an answer once its body is read. *)
Lemma execute_body_answered wd method addr data w res w1 buf :
  NewRequestError method addr = None →
  httpClient_Do (newRequest wd method addr data) w = (inr res, w1) →
  ReadAll res = inr buf →
  execute_body wd method addr data w = (classify res buf, w1).
Proof.
  intros HN HD HR. unfold execute_body, classify. rewrite HN, HD, HR.
  repeat case_match; done.
Qed.

(** When neither check finds the token fired, execute is its body. *)
Lemma execute_not_cancelled ctx method addr data wd w :
  Done (wd_ctx wd) w = false →
  Done (wd_ctx wd) (execute_body wd method addr data w).2 = false →
  execute ctx method addr data (wd, w) =
  ((execute_body wd method addr data w).1, (wd, (execute_body wd method addr data w).2)).
Proof. intros H1 H2. rewrite execute_cases. cbv zeta. by rewrite H1, H2. Qed.

(** C3. The error pE makes for an envelope is the catalog message of its
    status, then space, hyphen, space, then the backend message as %q
    writes it, which for a plain message is the message between double
    quotes. The catalog message is the entry of errorCodes (element not
    visible for 11) or unknown error and the status in decimal. The backend
    message is the errorMessage found by decoding value as an object with a
    message and that message, when not empty, as JSON text with an
    errorMessage; it is empty when either decoding fails or the message is
    empty. pE always returns this error, and execute returns it for every
    envelope it runs through pE. *)
Theorem pE_protocol_error :
  (∀ r : reply,
     let backend := backendError r in
     pE r = errorString (catalogMessage (Status r) +:+ " - " +:+ Quote backend)
     ∧ (plain backend = true →
        pE r = errorString (catalogMessage (Status r) +:+ " - " +:+ dquote +:+ backend +:+ dquote))
     ∧ (∀ message, errorCodes !! Status r = Some message → catalogMessage (Status r) = message)
     ∧ (errorCodes !! Status r = None →
        catalogMessage (Status r) = "unknown error - " +:+ pretty (Status r))
     ∧ (Status r = 11%Z → catalogMessage (Status r) = "element not visible")
     ∧ (∀ message errorMessage,
          UnmarshalRaw (Value r) decode_replyValue = inr message →
          message ≠ EmptyString →
          Unmarshal message decode_replyMessage = inr errorMessage →
          backend = errorMessage)
     ∧ ((∀ message,
           UnmarshalRaw (Value r) decode_replyValue = inr message →
           message = EmptyString ∨ ∃ e, Unmarshal message decode_replyMessage = inl e) →
        backend = EmptyString ∧ plain backend = true))
  ∧ (∀ wd method addr data w res w1 buf r,
       NewRequestError method addr = None →
       httpClient_Do (newRequest wd method addr data) w = (inr res, w1) →
       ReadAll res = inr buf →
       Unmarshal buf decode_reply = inr r →
       (400 ≤ StatusCode res)%Z
       ∨ String.prefix jsonMIMEType (ContentType res) = true ∧ Status r ≠ SUCCESS →
       execute_body wd method addr data w = ((EmptyString, Some (pE r)), w1)).
Proof.
  split.
  - intros r. cbv zeta. split; [done|]. split.
    { intros Hp. unfold pE. by rewrite Quote_plain. }
    split. { intros message H. unfold catalogMessage. by rewrite H. }
    split. { intros H. unfold catalogMessage. by rewrite H. }
    split. { intros H. by rewrite H. }
    unfold backendError. split.
    + intros message errorMessage H1 Hne H2. rewrite H1.
      apply String.eqb_neq in Hne. by rewrite Hne, H2.
    + intros H. destruct (UnmarshalRaw (Value r) decode_replyValue) as [e|message]; [done|].
      destruct (H message eq_refl) as [-> | [e He]]; [done|].
      rewrite He. by destruct (String.eqb message EmptyString).
  - intros wd method addr data w res w1 buf r HN HD HR HU Hcase.
    rewrite (execute_body_answered _ _ _ _ _ res w1 buf) by done.
    unfold classify. rewrite HU.
    destruct Hcase as [H400 | [Hct Hst]].
    + apply Z.leb_le in H400. by rewrite H400.
    + rewrite Hct. rewrite bool_decide_eq_true_2 by done.
      by destruct (400 <=? StatusCode res)%Z.
Qed.

(** C4. For an answer with a status of 400 or more, execute parses the body
    as a reply envelope. When the parse fails the error is Bad server reply
    status with the status line of the answer; when it succeeds the error
    is the one pE makes for the envelope, whatever the status of the
    envelope, 0 included. That is what the body of execute returns, and
    what execute returns unless a check finds the token fired. *)
Theorem bad_status_reply ctx wd method addr data w res w1 buf :
  NewRequestError method addr = None →
  httpClient_Do (newRequest wd method addr data) w = (inr res, w1) →
  ReadAll res = inr buf →
  (400 ≤ StatusCode res)%Z →
  let err :=
    match Unmarshal buf decode_reply with
    | inl _ => errorString ("Bad server reply status: " +:+ HTTPStatus res)
    | inr r => pE r
    end in
  execute_body wd method addr data w = ((EmptyString, Some err), w1)
  ∧ (Done (wd_ctx wd) w = false → Done (wd_ctx wd) w1 = false →
     execute ctx method addr data (wd, w) = ((EmptyString, Some err), (wd, w1)))
  ∧ (∀ r, Unmarshal buf decode_reply = inr r → Status r = SUCCESS →
     err = errorString ("unknown error - 0 - " +:+ Quote (backendError r))).
Proof.
  intros HN HD HR H400. cbv zeta.
  assert (execute_body wd method addr data w =
          ((EmptyString,
            Some match Unmarshal buf decode_reply with
                 | inl _ => errorString ("Bad server reply status: " +:+ HTTPStatus res)
                 | inr r => pE r
                 end), w1)) as HB.
  { rewrite (execute_body_answered _ _ _ _ _ res w1 buf) by done.
    unfold classify. apply Z.leb_le in H400. rewrite H400.
    by destruct (Unmarshal buf decode_reply). }
  split; [done|]. split.
  - intros H1 H2. rewrite execute_not_cancelled; [by rewrite HB|done|by rewrite HB].
  - intros r Hr Hs. rewrite Hr. unfold pE. by rewrite Hs.
Qed.

End Replies.

Section Elements.
Context `{P : Platform}.

Lemma rewriteFrom_spec rest : ∀ i args done_,
  args = done_ ++ rest → i = length done_ →
  rewriteFrom i rest args = done_ ++ (rewriteArg <$> rest).
Proof.
  induction rest as [|arg rest IH]; intros i args done_ Hargs Hi; cbn [rewriteFrom].
  - by rewrite Hargs.
  - rewrite (IH (S i) _ (done_ ++ [rewriteArg arg])).
    + by rewrite <- app_assoc.
    + subst. destruct arg; cbn [rewriteArg]; try by rewrite <- app_assoc.
      rewrite insert_app_r_alt by lia. rewrite Nat.sub_diag. cbn.
      by rewrite <- app_assoc.
    + rewrite length_app. cbn. lia.
Qed.

Lemma rewriteArgs_spec args : rewriteArgs args = rewriteArg <$> args.
Proof. unfold rewriteArgs. by rewrite (rewriteFrom_spec args 0 args []). Qed.

(** C6, as the code has it. Before the arguments of a script are marshalled,
    each argument of the list that is itself an element handle is replaced
    by the element struct, written on the wire as the object with the
    member ELEMENT; every other argument of the list is left as it is.
    The loop looks at the arguments of the list only: a handle inside an
    argument (in a slice or a map) stays a handle, and Marshal writes it as
    the empty object, a remoteWE having no exported field. *)
Theorem execScript_rewrites_top_level (script : string) (args : list GoValue) :
  rewriteArgs args = rewriteArg <$> args
  ∧ (∀ i v, args !! i = Some (GoRemoteWE v) →
       rewriteArgs args !! i = Some (GoElement (mkElement (elem_id v)))
       ∧ Marshal (GoElement (mkElement (elem_id v)))
         = inr (JObject [("ELEMENT", JString (elem_id v))]))
  ∧ (∀ i arg, args !! i = Some arg → (∀ v, arg ≠ GoRemoteWE v) →
       rewriteArgs args !! i = Some arg)
  ∧ (∀ v, Marshal (GoSlice [GoRemoteWE v]) = inr (JArray [JObject []]))
  ∧ execScript_data script (Some args) =
    (do! params ← Marshal (GoMap [("args", GoSlice (rewriteArg <$> args));
                                  ("script", GoString script)]);
     inr (encode params)).
Proof.
  split; [apply rewriteArgs_spec|]. split; [|split; [|split]].
  - intros i v H. rewrite rewriteArgs_spec, list_lookup_fmap, H. done.
  - intros i arg H Hne. rewrite rewriteArgs_spec, list_lookup_fmap, H.
    destruct arg; try done. by destruct (Hne v).
  - done.
  - unfold execScript_data. by rewrite rewriteArgs_spec.
Qed.

(** C8, as the code has it. When the reply of a find command is there and
    its value does not decode as an element reference (as a list of them
    for FindElements), the call panics: the panic carries the decoding
    error and the raw value, and no error is returned to the caller. When
    the value decodes, the handle (the handles) are returned with a nil
    error. *)
Theorem find_decode_failure_panics ctx by_ value st r st' :
  (find ctx by_ value EmptyString EmptyString st = ((Some r, None), st') →
   FindElement ctx by_ value st =
   match UnmarshalRaw (Value r) decode_element with
   | inl err => (Panicked (decodePanic err (Value r)), st')
   | inr elem => (Return (Some (mkRemoteWE (Element elem)), None), st')
   end)
  ∧ (find ctx by_ value "s" EmptyString st = ((Some r, None), st') →
     FindElements ctx by_ value st =
     match UnmarshalRaw (Value r) decode_elements with
     | inl err => (Panicked (decodePanic err (Value r)), st')
     | inr elems => (Return ((λ elem, mkRemoteWE (Element elem)) <$> elems, None), st')
     end).
Proof.
  split; intros H.
  - unfold FindElement. rewrite H. unfold decodeElement, readValue.
    by destruct (UnmarshalRaw (Value r) decode_element).
  - unfold FindElements. rewrite H. unfold decodeElements, readValue.
    by destruct (UnmarshalRaw (Value r) decode_elements).
Qed.

End Elements.

Section Redirects.
Context `{P : Platform}.

(** The budget of the model is never the reason a call ends. *)
Lemma clientDo_fuel fuel via req w :
  9 ≤ length via + fuel → clientDo (S fuel) via req w = clientDo fuel via req w.
Proof.
  revert via req w. induction fuel as [|fuel IH]; intros via req w Hlen.
  - rewrite clientDo_S. cbn [clientDo].
    destruct (hop via req w) eqn:Hhop; [done|].
    apply hop_Follow in Hhop as (_ & -> & Hlt & _).
    rewrite length_app in Hlt. cbn in Hlt. lia.
  - rewrite (clientDo_S (S fuel)), (clientDo_S fuel).
    destruct (hop via req w) eqn:Hhop; [done|].
    apply IH. apply hop_Follow in Hhop as (_ & -> & _).
    rewrite length_app. cbn. lia.
Qed.

Lemma clientDo_followed fuel : ∀ via req w,
  length via + fuel = 9 →
  ∃ followed,
    sent (clientDo fuel via req w).2 = sent w ++ req :: followed
    ∧ length followed ≤ fuel
    ∧ Forall (λ r, ("Accept", jsonMIMEType) ∈ Header r) followed.
Proof.
  induction fuel as [|fuel IH]; intros via req w Hlen; cbn [clientDo].
  - destruct (hop via req w) as [result w1|via' next' w1] eqn:Hhop; cbn [fst snd].
    + apply hop_Finished in Hhop as [Hs _]. exists []. by rewrite Hs.
    + apply hop_Follow in Hhop as (_ & -> & Hlt & _).
      rewrite length_app in Hlt. cbn in Hlt. lia.
  - destruct (hop via req w) as [result w1|via' next' w1] eqn:Hhop; cbn [fst snd].
    + apply hop_Finished in Hhop as [Hs _]. exists []. rewrite Hs.
      split; [done|]. split; [cbn; lia|done].
    + apply hop_Follow in Hhop as (Hs & -> & _ & Hacc & _).
      destruct (IH (via ++ [req]) next' w1) as (followed & Hf & Hl & Ha).
      { rewrite length_app. cbn. lia. }
      exists (next' :: followed). rewrite Hf, Hs, <- app_assoc.
      split; [done|]. split; [cbn; lia|by constructor].
Qed.

Lemma clientDo_chain (base : nat) fuel : ∀ via req w,
  length via + fuel = 9 →
  length (sent w) = base + length via →
  (∀ w' r, base ≤ length (sent w') < base + 10 →
     ∃ next, answer (RoundTrip w' r) = Redirected next) →
  (clientDo fuel via req w).1 = inl (urlError (errorString "stopped after 10 redirects"))
  ∧ length (sent (clientDo fuel via req w).2) = base + 10.
Proof.
  induction fuel as [|fuel IH]; intros via req w Hlen Hsent Hchain; cbn [clientDo].
  - destruct (Hchain w req) as [next Hnext]; [lia|].
    unfold hop. rewrite Hnext. unfold CheckRedirect.
    rewrite bool_decide_eq_true_2 by (rewrite length_app; cbn; lia).
    cbn [fst snd sent]. split; [done|]. rewrite length_app. cbn. lia.
  - destruct (Hchain w req) as [next Hnext]; [lia|].
    unfold hop. rewrite Hnext. unfold CheckRedirect.
    rewrite bool_decide_eq_false_2 by (rewrite length_app; cbn; lia).
    apply IH; [rewrite length_app; cbn; lia| |done].
    cbn [sent]. rewrite !length_app. cbn. lia.
Qed.

(** C9, as the code has it. CheckRedirect adds the Accept header to the
    upcoming request when fewer than 10 requests have been made, and
    returns the error stopped after 10 redirects otherwise. So one call of
    the client sends the request of the command and follows at most 9
    redirects, each followed request carrying the Accept header; when the
    server answers the first ten requests of a call with redirects, a chain
    of 10 redirects or more, the call and the command fail with that
    error, ten requests having been sent. The budget of the model plays no
    part. *)
Theorem redirect_policy (req : Request) (w : World) :
  (∀ next via,
     CheckRedirect next via =
     if bool_decide (length via < 10)
     then (None, Header_Add "Accept" jsonMIMEType next)
     else (Some (errorString "stopped after 10 redirects"), next))
  ∧ (∃ followed,
       sent (httpClient_Do req w).2 = sent w ++ req :: followed
       ∧ length followed ≤ 9
       ∧ Forall (λ r, ("Accept", jsonMIMEType) ∈ Header r) followed)
  ∧ ((∀ w' r, length (sent w) ≤ length (sent w') < length (sent w) + 10 →
        ∃ next, answer (RoundTrip w' r) = Redirected next) →
     (httpClient_Do req w).1 = inl (urlError (errorString "stopped after 10 redirects"))
     ∧ length (sent (httpClient_Do req w).2) = length (sent w) + 10
     ∧ ∀ wd method addr data,
         NewRequestError method addr = None → req = newRequest wd method addr data →
         (execute_body wd method addr data w).1 =
         (EmptyString, Some (urlError (errorString "stopped after 10 redirects"))))
  ∧ (∀ k, clientDo (9 + k) [] req w = httpClient_Do req w).
Proof.
  split; [|split; [|split]].
  - intros next via. unfold CheckRedirect.
    case_bool_decide; [by rewrite bool_decide_eq_false_2 by lia|].
    by rewrite bool_decide_eq_true_2 by lia.
  - by apply clientDo_followed.
  - intros Hchain.
    destruct (clientDo_chain (length (sent w)) 9 [] req w) as [H1 H2]; [done|cbn; lia|done|].
    split; [done|]. split; [done|].
    intros wd method addr data HN ->. unfold execute_body. rewrite HN.
    unfold httpClient_Do in *.
    destruct (clientDo 9 [] _ w) as [[e|res] w1]; cbn [fst] in *; by simplify_eq.
  - intros k. induction k as [|k IH]; [done|].
    rewrite <- IH. replace (9 + S k) with (S (9 + k)) by lia.
    apply clientDo_fuel. cbn. lia.
Qed.

End Redirects.

Section EmptyBody.
Context `{P : Platform}.

Lemma send_empty ctx wd w method addr data w1 :
  emptySuccess wd w method addr data w1 →
  send ctx method addr data (wd, w) = ((None, None), (wd, w1)).
Proof.
  intros (HN & (res & HD & HR & Hlt & Hct) & H1 & H2).
  assert (execute_body wd method addr data w = ((EmptyString, None), w1)) as HB.
  { rewrite (execute_body_answered _ _ _ _ _ res w1 EmptyString) by done.
    unfold classify. rewrite Hct.
    by assert ((400 <=? StatusCode res)%Z = false) as -> by (apply Z.leb_gt; lia). }
  unfold send. rewrite execute_not_cancelled; rewrite ?HB; done.
Qed.

(** C10, as the code has it. When the answer to a command is a success
    with an empty body that does not announce JSON, and no check finds the
    token fired, send returns a nil reply and a nil error. stringCommand,
    boolCommand and stringsCommand then call readValue on the nil reply and
    NewSession reads its SessionId: each panics on the nil pointer, and none
    returns an error. *)
Theorem empty_body_nil_reply ctx wd w :
  (∀ method addr data w1,
     emptySuccess wd w method addr data w1 →
     send ctx method addr data (wd, w) = ((None, None), (wd, w1)))
  ∧ (∀ urlTemplate w1,
       emptySuccess wd w "GET" (url wd urlTemplate [wd_id wd]) EmptyString w1 →
       stringCommand ctx urlTemplate (wd, w) = (Panicked nilDereference, (wd, w1))
       ∧ boolCommand ctx urlTemplate (wd, w) = (Panicked nilDereference, (wd, w1))
       ∧ stringsCommand ctx urlTemplate (wd, w) = (Panicked nilDereference, (wd, w1)))
  ∧ (∀ message w1,
       Marshal (GoMap [("desiredCapabilities", wd_capabilities wd)]) = inr message →
       emptySuccess wd w "POST" (url wd "/session" []) (encode message) w1 →
       NewSession ctx (wd, w) = (Panicked nilDereference, (wd, w1))).
Proof.
  split; [|split].
  - intros. by apply send_empty.
  - intros t w1 H. apply (send_empty ctx) in H.
    unfold stringCommand, boolCommand, stringsCommand, sendAndRead. cbn [fst snd].
    by rewrite H.
  - intros message w1 HM H. apply (send_empty ctx) in H.
    unfold NewSession. cbn [fst snd]. by rewrite HM, H.
Qed.

End EmptyBody.

Section Cookies.
Context `{P : Platform}.

Lemma storeElems_length {T} (dec : Json → error + T) vs : ∀ xs,
  storeElems dec vs = inr xs → length xs = length vs.
Proof.
  induction vs as [|v vs IH]; intros xs; cbn [storeElems]; [by intros [= <-]|].
  unfold bindE. destruct (dec v) as [e|x]; [done|].
  destruct (storeElems dec vs) as [e|xs']; [done|].
  intros [= <-]. cbn. by rewrite (IH xs').
Qed.

(** Two slices decoded from one value have one length. *)
Lemma storeSlice_lengths {A B} ta tb (da : Json → error + A) (db : Json → error + B) v xs ys :
  storeSlice ta da v = inr xs → storeSlice tb db v = inr ys → length xs = length ys.
Proof.
  destruct v; try done; cbn [storeSlice].
  - by intros [= <-] [= <-].
  - intros H1 H2. apply storeElems_length in H1, H2. congruence.
Qed.

Lemma storeMembers_inv {T} (I : T → Prop) (store : string → Json → T → error + T) :
  (∀ k v t t', store k v t = inr t' → I t → I t') →
  ∀ ms t t', storeMembers store ms t = inr t' → I t → I t'.
Proof.
  intros Hs ms. induction ms as [|[k v] ms IH]; intros t t'; cbn [storeMembers].
  - by intros [= <-].
  - unfold bindE. destruct (store k v t) as [e|t1] eqn:H1; [done|].
    intros H2 Ht. eapply IH; [done|]. by eapply Hs.
Qed.

Lemma Cookie_store_Expiry k v c c' :
  Cookie_store k v c = inr c' → Expiry c = 0%Z → Expiry c' = 0%Z.
Proof.
  unfold Cookie_store, bindE. intros H H0.
  repeat case_match; simplify_eq; done.
Qed.

(** The first decoding never writes the expiry. *)
Lemma decode_Cookies_Expiry v cookies :
  decode_Cookies v = inr cookies → Forall (λ c, Expiry c = 0%Z) cookies.
Proof.
  unfold decode_Cookies, storeSlice. destruct v; try done.
  - intros [= <-]. constructor.
  - revert cookies. induction elems as [|v vs IH]; intros cookies; cbn [storeElems].
    + intros [= <-]. constructor.
    + unfold bindE. destruct (decode_Cookie v) as [e|c] eqn:Hc; [done|].
      destruct (storeElems decode_Cookie vs) as [e|cs]; [done|].
      intros [= <-]. constructor; [|by apply IH].
      unfold decode_Cookie, storeStruct in Hc. destruct v; try done.
      * by simplify_eq.
      * eapply (storeMembers_inv (λ c, Expiry c = 0%Z)); [|done|done].
        intros. by eapply Cookie_store_Expiry.
Qed.

Lemma expiryLoop_spec n : ∀ i expiries cookies,
  i + n ≤ length expiries →
  ∃ patched,
    expiryLoop n i expiries cookies = Return patched
    ∧ length patched = length cookies
    ∧ ∀ j,
        patched !! j =
        (λ c, if bool_decide (i ≤ j < i + n)
              then patchExpiry (default EmptyString (expiries !! j)) c
              else c) <$> cookies !! j.
Proof.
  induction n as [|n IH]; intros i expiries cookies Hlen; cbn [expiryLoop].
  - exists cookies. split; [done|]. split; [done|]. intros j.
    rewrite bool_decide_eq_false_2 by lia. by destruct (cookies !! j).
  - destruct (expiries !! i) as [number|] eqn:Hnum.
    2: { apply lookup_ge_None in Hnum. lia. }
    destruct (Float64 number) as [f|] eqn:Hf.
    + destruct (IH (S i) expiries (alter (set_Expiry (uint f)) i cookies))
        as (patched & Hp & Hl & Hj); [lia|].
      exists patched. split; [done|]. split; [by rewrite Hl, length_alter|].
      intros j. rewrite Hj. destruct (decide (i = j)) as [<-|Hne].
      * rewrite list_lookup_alter_eq. rewrite bool_decide_eq_false_2 by lia.
        rewrite bool_decide_eq_true_2 by lia. rewrite Hnum.
        change (default EmptyString (Some number)) with number.
        unfold patchExpiry. rewrite Hf. by destruct (cookies !! i).
      * rewrite list_lookup_alter_ne by done.
        destruct (cookies !! j); [|done]. cbn.
        repeat case_bool_decide; (done || lia).
    + destruct (IH (S i) expiries cookies) as (patched & Hp & Hl & Hj); [lia|].
      exists patched. split; [done|]. split; [done|].
      intros j. rewrite Hj. destruct (decide (i = j)) as [<-|Hne].
      * rewrite bool_decide_eq_false_2 by lia.
        rewrite bool_decide_eq_true_2 by lia. rewrite Hnum.
        change (default EmptyString (Some number)) with number.
        unfold patchExpiry. rewrite Hf. by destruct (cookies !! i).
      * destruct (cookies !! j); [|done]. cbn.
        repeat case_bool_decide; (done || lia).
Qed.

Lemma uint_floor f : (0 <= f)%Q → (Qfloor f < 2 ^ intBits)%Z → uint f = Qfloor f.
Proof.
  destruct f as [a b]. unfold Qle, uint, Qfloor. cbn [Qnum Qden]. intros Ha Hlt.
  assert (0 ≤ a)%Z by lia.
  rewrite Z.quot_div_nonneg by lia.
  assert (0 ≤ a / Z.pos b)%Z by (apply Z.div_pos; lia).
  rewrite (proj2 (Z.leb_le _ _)) by done.
  by rewrite (proj2 (Z.ltb_lt _ _)) by done.
Qed.

(** C7. Let the reply of the cookie command be there and its value decode
    as the list of cookies, whose expiries that decoding leaves at zero.
    When the value also decodes as a list of objects with a Number Expiry,
    that list is as long as the list of cookies and GetCookies returns,
    with a nil error, the cookies patched position by position: the cookie
    at a position whose Number converts to a float64 gets that float
    converted to uint, its floor for a float from 0 up to the range of
    uint, and a cookie whose Number does not convert stays as it is. When
    the second decoding fails, GetCookies returns the cookies as the first
    decoding left them, expiry zero, with a nil error. *)
Theorem cookie_expiry_patch ctx st r st' cookies :
  send ctx "GET" (url st.1 "/session/%s/cookie" [wd_id st.1]) EmptyString st
    = ((Some r, None), st') →
  UnmarshalRaw (Value r) decode_Cookies = inr cookies →
  Forall (λ c, Expiry c = 0%Z) cookies
  ∧ match UnmarshalRaw (Value r) decode_expiries with
    | inr expiries =>
        length expiries = length cookies
        ∧ ∃ patched,
            GetCookies ctx st = (Return (patched, None), st')
            ∧ length patched = length cookies
            ∧ ∀ i c, cookies !! i = Some c →
                ∃ number, expiries !! i = Some number
                          ∧ patched !! i = Some (patchExpiry number c)
    | inl _ => GetCookies ctx st = (Return (cookies, None), st')
    end
  ∧ (∀ number f c,
       Float64 number = Some f → (0 <= f)%Q → (Qfloor f < 2 ^ intBits)%Z →
       patchExpiry number c = set_Expiry (Qfloor f) c)
  ∧ (∀ number c, Float64 number = None → patchExpiry number c = c).
Proof.
  intros Hsend Hc. split; [|split; [|split]].
  - destruct (Value r) as [v|]; [|done]. by eapply decode_Cookies_Expiry.
  - unfold GetCookies. rewrite Hsend. cbn [readValue option_bind mbind].
    rewrite Hc. unfold parseCookieExpiry.
    destruct (UnmarshalRaw (Value r) decode_expiries) as [e|expiries] eqn:He; [done|].
    assert (length cookies = length expiries) as Hlen.
    { destruct (Value r) as [v|]; [|done]. cbn [UnmarshalRaw] in *.
      by eapply storeSlice_lengths. }
    split; [done|].
    destruct (expiryLoop_spec (length cookies) 0 expiries cookies)
      as (patched & Hp & Hl & Hj); [lia|].
    exists patched. rewrite Hp. split; [done|]. split; [done|].
    intros i c Hi. pose proof (lookup_lt_Some _ _ _ Hi) as Hlt.
    destruct (lookup_lt_is_Some_2 expiries i) as [number Hn]; [lia|].
    exists number. split; [done|]. rewrite Hj, Hi, Hn. cbn.
    by rewrite bool_decide_eq_true_2 by lia.
  - intros number f c Hf H0 Hlt. unfold patchExpiry. rewrite Hf. by rewrite uint_floor.
  - intros number c Hf. unfold patchExpiry. by rewrite Hf.
Qed.

End Cookies.

(** * Worked examples on the platform [Demo.platform] *)

(** X21 at work: a driver quits, posts a command, and quits again. The
    second Quit returns nil and the world still holds the two requests sent
    before it. *)
Lemma Quit_idempotent_witness :
  let P := Demo.platform (Demo.always (Demo.ok "text/plain" EmptyString)) in
  let ops := [OpVoidCommand Background "/session/%s/refresh" None] in
  let st2 := run ops (Quit Background (Demo.driver, Demo.world)).2 in
  Quit Background st2 = (None, st2) ∧ length (sent st2.2) = 2.
Proof.
  cbv zeta. split.
  - exact (proj1 (Quit_idempotent
             (P := Demo.platform (Demo.always (Demo.ok "text/plain" EmptyString)))
             Background Background [OpVoidCommand Background "/session/%s/refresh" None]
             (Demo.driver, Demo.world))).
  - vm_compute. reflexivity.
Defined.

(** C2 at work: the caller cancels token 1 while the request is in flight.
    The second check finds it fired: the command returns ErrCanceled. *)
Lemma execute_cancellation_guard_witness :
  let P := Demo.platform (Demo.cancelling 1 (Demo.ok "text/plain" EmptyString)) in
  (execute Background "GET" "http://h/x" EmptyString
     (set_ctx (WithCancel 1) Demo.driver, Demo.world)).1.2 = Some ErrCanceled.
Proof.
  cbv zeta.
  apply (execute_cancellation_guard
           (P := Demo.platform (Demo.cancelling 1 (Demo.ok "text/plain" EmptyString)))
           Background "GET" "http://h/x" EmptyString
           (set_ctx (WithCancel 1) Demo.driver) Demo.world).
  right. vm_compute. reflexivity.
Defined.

(** C3 at work: status 11 with a message that is JSON text holding the
    errorMessage hidden. *)
Lemma pE_protocol_error_witness :
  let P := Demo.platform (Demo.always (Demo.ok "text/plain" EmptyString)) in
  pE (mkReply EmptyString 11
        (Some (JObject [("message", JString (Demo.text "{'errorMessage':'hidden'}"))])))
  = errorString (Demo.text "element not visible - 'hidden'").
Proof.
  cbv zeta.
  destruct (proj1 (pE_protocol_error
                     (P := Demo.platform (Demo.always (Demo.ok "text/plain" EmptyString))))
              (mkReply EmptyString 11
                 (Some (JObject [("message",
                                  JString (Demo.text "{'errorMessage':'hidden'}"))]))))
    as (_ & H & _).
  rewrite H; vm_compute; reflexivity.
Defined.

(** C4 at work: a 404 whose body is no JSON. *)
Lemma bad_status_reply_witness :
  let P := Demo.platform
             (Demo.always (mkResponse "404 Not Found" 404 "text/html" (inr "not here"))) in
  (execute Background "GET" "http://h/x" EmptyString (Demo.driver, Demo.world)).1
  = (EmptyString, Some (errorString "Bad server reply status: 404 Not Found")).
Proof.
  cbv zeta.
  edestruct (bad_status_reply
               (P := Demo.platform
                       (Demo.always (mkResponse "404 Not Found" 404 "text/html" (inr "not here"))))
               Background Demo.driver "GET" "http://h/x" EmptyString Demo.world)
    as (_ & H & _).
  - reflexivity.
  - vm_compute. reflexivity.
  - reflexivity.
  - vm_compute. discriminate.
  - rewrite H; vm_compute; reflexivity.
Defined.

(** C5 at work: the Quit of a driver with the session s1 succeeds and
    leaves the id empty. *)
Lemma session_id_invariant_witness :
  let P := Demo.platform (Demo.always (Demo.ok "text/plain" EmptyString)) in
  wd_id (Quit Background (Demo.driver, Demo.world)).2.1 = EmptyString.
Proof.
  cbv zeta.
  pose proof (proj1 (proj2 (proj2
    (session_id_invariant
       (P := Demo.platform (Demo.always (Demo.ok "text/plain" EmptyString))))))
    Background (Demo.driver, Demo.world)) as H.
  assert ((Quit (P := Demo.platform (Demo.always (Demo.ok "text/plain" EmptyString)))
             Background (Demo.driver, Demo.world)).1 = None) as HQ
    by (vm_compute; reflexivity).
  destruct (Quit Background (Demo.driver, Demo.world)) as [[e|] st']; [discriminate HQ|].
  exact H.
Defined.

(** C6 at work: a handle and a number at the top of the list. *)
Lemma execScript_rewrites_top_level_witness :
  rewriteArgs [GoRemoteWE (mkRemoteWE "e1"); GoInt 3]
  = [GoElement (mkElement "e1"); GoInt 3].
Proof.
  exact (proj1 (execScript_rewrites_top_level
                  (P := Demo.platform (Demo.always (Demo.ok "text/plain" EmptyString)))
                  "return 1" [GoRemoteWE (mkRemoteWE "e1"); GoInt 3])).
Defined.

(** C6 as stated fails: a handle one level down in the list is not
    rewritten. The argument list holds one slice holding the handle e1; the
    list is left as it is, and the handle is marshalled as the empty
    object, not as the object with ELEMENT e1. *)
Lemma nested_handle_not_rewritten :
  let handle := GoRemoteWE (mkRemoteWE "e1") in
  rewriteArgs [GoSlice [handle]] = [GoSlice [handle]]
  ∧ Marshal (GoSlice (rewriteArgs [GoSlice [handle]])) = inr (JArray [JArray [JObject []]])
  ∧ Marshal (GoSlice (rewriteArgs [GoSlice [handle]]))
    ≠ inr (JArray [JArray [JObject [("ELEMENT", JString "e1")]]]).
Proof. by cbv. Qed.

(** C7 at work: the value holds one cookie whose expiry is 1700000000. *)
Lemma cookie_expiry_patch_witness :
  let P := Demo.platform
             (Demo.always
                (Demo.ok "application/json"
                   (Demo.text "{'status':0,'value':[{'name':'a','Expiry':1700000000}]}"))) in
  ∃ patched st',
    GetCookies Background (Demo.driver, Demo.world) = (Return (patched, None), st')
    ∧ Expiry <$> patched !! 0 = Some 1700000000%Z.
Proof.
  cbv zeta.
  edestruct (cookie_expiry_patch
               (P := Demo.platform
                       (Demo.always
                          (Demo.ok "application/json"
                             (Demo.text "{'status':0,'value':[{'name':'a','Expiry':1700000000}]}"))))
               Background (Demo.driver, Demo.world))
    as (_ & H & _).
  - vm_compute. reflexivity.
  - vm_compute. reflexivity.
  - cbn [Value UnmarshalRaw] in H.
    destruct H as (_ & patched & HG & _ & Hi).
    exists patched. eexists. split; [exact HG|].
    destruct (Hi 0 (mkCookie "a" EmptyString EmptyString EmptyString false 0) eq_refl)
      as (number & Hn & Hp).
    injection Hn as <-. rewrite Hp. vm_compute. reflexivity.
Defined.

(** C8 at work, and C8 as stated failing: the value of the reply is the
    number 5. FindElement panics with the decoding error; no error is
    returned to the caller. *)
Lemma find_decode_failure_panics_witness :
  let P := Demo.platform
             (Demo.always
                (Demo.ok "application/json"
                   (Demo.text "{'sessionId':'s1','status':0,'value':5}"))) in
  (FindElement Background "id" "chuk" (Demo.driver, Demo.world)).1
  = Panicked (decodePanic (UnmarshalTypeError "element") (Some (JNumber "5"))).
Proof.
  cbv zeta.
  rewrite (proj1 (find_decode_failure_panics
                    (P := Demo.platform
                            (Demo.always
                               (Demo.ok "application/json"
                                  (Demo.text "{'sessionId':'s1','status':0,'value':5}"))))
                    Background "id" "chuk" (Demo.driver, Demo.world)
                    (mkReply "s1" 0 (Some (JNumber "5")))
                    (find (P := Demo.platform
                                  (Demo.always
                                     (Demo.ok "application/json"
                                        (Demo.text "{'sessionId':'s1','status':0,'value':5}"))))
                       Background "id" "chuk" EmptyString EmptyString
                       (Demo.driver, Demo.world)).2)).
  - vm_compute. reflexivity.
  - vm_compute. reflexivity.
Defined.

Lemma malformed_element_reply_aborts :
  let P := Demo.platform
             (Demo.always
                (Demo.ok "application/json"
                   (Demo.text "{'sessionId':'s1','status':0,'value':5}"))) in
  (FindElement Background "id" "chuk" (Demo.driver, Demo.world)).1
  = Panicked (decodePanic (UnmarshalTypeError "element") (Some (JNumber "5")))
  ∧ (FindElements Background "id" "chuk" (Demo.driver, Demo.world)).1
    = Panicked (decodePanic (UnmarshalTypeError "[]element") (Some (JNumber "5"))).
Proof. vm_compute. split; reflexivity. Qed.

(** C9 at work: a chain of 11 redirects fails. *)
Lemma redirect_policy_witness :
  let P := Demo.platform (Demo.redirecting 11 (Demo.ok "text/plain" EmptyString)) in
  (httpClient_Do (newRequest Demo.driver "GET" "http://h/x" EmptyString) Demo.world).1
  = inl (urlError (errorString "stopped after 10 redirects")).
Proof.
  cbv zeta.
  apply (proj1 (proj2 (proj2
    (redirect_policy
       (P := Demo.platform (Demo.redirecting 11 (Demo.ok "text/plain" EmptyString)))
       (newRequest Demo.driver "GET" "http://h/x" EmptyString) Demo.world)))).
  intros w' r Hlen. eexists. cbn [RoundTrip Demo.platform Demo.redirecting answer].
  cbn [Demo.world sent length] in Hlen.
  destruct (Nat.ltb_spec (length (sent w')) 11) as [_|Hge]; [reflexivity|lia].
Defined.

(** C9 as stated fails: a chain of exactly 10 redirects is not followed to
    its end. The server redirects ten times and would then answer 200; the
    command fails with the redirect error after ten requests, the request
    that the tenth redirect asks for never being sent. A chain of 9 is
    followed: ten requests, and the answer is returned. *)
Lemma tenth_redirect_not_followed :
  let P10 := Demo.platform (Demo.redirecting 10 (Demo.ok "text/plain" EmptyString)) in
  let P9 := Demo.platform (Demo.redirecting 9 (Demo.ok "text/plain" EmptyString)) in
  let out10 := @execute P10 Background "GET" "http://h/x" EmptyString (Demo.driver, Demo.world) in
  let out9 := @execute P9 Background "GET" "http://h/x" EmptyString (Demo.driver, Demo.world) in
  out10.1 = (EmptyString, Some (urlError (errorString "stopped after 10 redirects")))
  ∧ length (sent out10.2.2) = 10
  ∧ out9.1 = (EmptyString, None)
  ∧ length (sent out9.2.2) = 10.
Proof. vm_compute. repeat split; reflexivity. Qed.

(** C10 at work: a success with an empty plain body; stringCommand panics. *)
Lemma empty_body_nil_reply_witness :
  let P := Demo.platform (Demo.always (Demo.ok "text/plain" EmptyString)) in
  (stringCommand Background "/session/%s/title" (Demo.driver, Demo.world)).1
  = Panicked nilDereference.
Proof.
  cbv zeta.
  edestruct (proj1 (proj2
    (empty_body_nil_reply
       (P := Demo.platform (Demo.always (Demo.ok "text/plain" EmptyString)))
       Background Demo.driver Demo.world)) "/session/%s/title") as (H & _).
  - split; [reflexivity|]. split; [|split; reflexivity].
    eexists. split; [vm_compute; reflexivity|].
    split; [reflexivity|]. split; [vm_compute; reflexivity|reflexivity].
  - rewrite H. reflexivity.
Defined.

(** C10 as stated fails: a success with an empty body that announces JSON.
    execute parses the body and returns the syntax error; send returns it
    with a nil reply, and stringCommand and NewSession return it to the
    caller: nothing panics. *)
Lemma empty_json_body_is_an_error :
  let P := Demo.platform (Demo.always (Demo.ok "application/json" EmptyString)) in
  (send Background "GET" "http://h/session/s1/title" EmptyString (Demo.driver, Demo.world)).1
  = (None, Some SyntaxError)
  ∧ (stringCommand Background "/session/%s/title" (Demo.driver, Demo.world)).1
    = Return (EmptyString, Some SyntaxError)
  ∧ (NewSession Background (Demo.driver, Demo.world)).1
    = Return (EmptyString, Some SyntaxError).
Proof. vm_compute. repeat split; reflexivity. Qed.

(** * Further properties of the code *)

Section Lifetime.
Context `{P : Platform}.

Lemma execute_body_world wd method addr data w :
  (execute_body wd method addr data w).2 =
  match NewRequestError method addr with
  | Some _ => w
  | None => (httpClient_Do (newRequest wd method addr data) w).2
  end.
Proof.
  unfold execute_body. destruct (NewRequestError method addr); [done|].
  destruct (httpClient_Do _ w) as [[err|res] w1]; [done|]. cbn [snd].
  repeat case_match; done.
Qed.

(** What the body of execute puts on the wire. *)
Lemma execute_body_added wd method addr data w :
  ∃ added,
    sent (execute_body wd method addr data w).2 = sent w ++ added
    ∧ length added ≤ 10
    ∧ Forall hasAccept added.
Proof.
  rewrite execute_body_world. destruct (NewRequestError method addr).
  - exists []. rewrite app_nil_r. split; [done|]. split; [cbn; lia|done].
  - destruct (clientDo_followed 9 [] (newRequest wd method addr data) w)
      as (followed & Hs & Hl & Ha); [done|].
    exists (newRequest wd method addr data :: followed).
    split; [done|]. split; [cbn; lia|]. constructor; [|done].
    unfold hasAccept, newRequest. cbn [Header]. set_solver.
Qed.

Lemma Quit_added ctx st :
  ∃ added,
    sent (Quit ctx st).2.2 = sent st.2 ++ added
    ∧ length added ≤ 10
    ∧ Forall hasAccept added.
Proof.
  destruct st as [wd w]. destruct (wd_haveQuit wd) eqn:HQ.
  - rewrite Quit_done by done. exists []. rewrite app_nil_r.
    split; [done|]. split; [cbn; lia|done].
  - rewrite Quit_first by done. cbv zeta.
    destruct (execute_body_added (set_ctx Background (set_haveQuit true wd)) "DELETE"
                (url (set_ctx Background (set_haveQuit true wd)) "/session/%s"
                   [wd_id (set_ctx Background (set_haveQuit true wd))]) EmptyString w)
      as (added & Hs & Hl & Ha).
    exists added.
    by destruct (execute_body _ _ _ _ _) as [[buf [e|]] w1].
Qed.

Lemma execute_added ctx method addr data st :
  ∃ added,
    sent (execute ctx method addr data st).2.2 = sent st.2 ++ added
    ∧ length added ≤ 20
    ∧ Forall hasAccept added.
Proof.
  destruct st as [wd w]. rewrite execute_cases. cbv zeta.
  destruct (execute_body_added wd method addr data w) as (own & Hs & Hl & Ha).
  destruct (Done (wd_ctx wd) w).
  - destruct (Quit_added Background (wd, w)) as (q & Hq & Hql & Hqa).
    exists q. split; [done|]. split; [lia|done].
  - destruct (Done (wd_ctx wd) _).
    + destruct (Quit_added Background (wd, (execute_body wd method addr data w).2))
        as (q & Hq & Hql & Hqa).
      exists (own ++ q). cbn [fst snd] in *. rewrite Hq, Hs, <- app_assoc.
      split; [done|]. split; [rewrite length_app; lia|by apply Forall_app].
    + exists own. split; [done|]. split; [lia|done].
Qed.

(** The state NewSession leaves: the state it found, the state of its one
    command, or that state with the id written after the command returned
    no error. *)
Lemma NewSession_state ctx st :
  (NewSession ctx st).2 = st
  ∨ ∃ method addr data,
      (NewSession ctx st).2 = (execute ctx method addr data st).2
      ∨ ((execute ctx method addr data st).1.2 = None
         ∧ ∃ sid, (NewSession ctx st).2 =
                  (set_id sid (execute ctx method addr data st).2.1,
                   (execute ctx method addr data st).2.2)).
Proof.
  unfold NewSession. destruct (Marshal _) as [e|message]; [by left|].
  right. exists "POST", (url st.1 "/session" []), (encode message).
  unfold send.
  destruct (execute ctx "POST" (url st.1 "/session" []) (encode message) st)
    as [[buf [e|]] [wd w]]; [by left|].
  cbn [fst snd]. case_bool_decide; [|by left].
  destruct (Unmarshal buf decode_reply_ptr) as [e|[r|]]; [by left| |by left].
  right. split; [done|]. by exists (SessionId r).
Qed.

(** Every operation that is a command runs execute once, or not at all;
    a relation that execute, Quit and the writing of the id keep, also
    when the driver execute leaves is dropped for the one it found (as
    stringsCommand does), is kept by each of them. *)
Lemma step_rel (R : State → State → Prop) :
  (∀ st, R st st) →
  (∀ c method addr data st, R st (execute c method addr data st).2) →
  (∀ c method addr data st, R st (st.1, (execute c method addr data st).2.2)) →
  (∀ c st, R st (Quit c st).2) →
  (∀ c method addr data st sid,
     (execute c method addr data st).1.2 = None →
     R st (set_id sid (execute c method addr data st).2.1,
           (execute c method addr data st).2.2)) →
  ∀ op st, isSetContext op = false → isCancel op = false → R st (step st op).
Proof.
  intros Hrefl Hexec Hcopy Hquit Hid op st Hs Hc.
  destruct op; try done; cbn [step].
  - destruct (NewSession_state c st) as [->|(m & a & d & [->|[Hn [sid ->]]])]; auto.
  - apply Hquit.
  - unfold stringCommand. rewrite sendAndRead_state. apply Hexec.
  - rewrite stringsCommand_state. apply Hcopy.
  - unfold boolCommand. rewrite sendAndRead_state. apply Hexec.
  - unfold voidCommand.
    destruct (match params with None => _ | Some _ => _ end) as [e|data]; [apply Hrefl|].
    pose proof (send_state c "POST" (url st.1 urlTemplate [wd_id st.1]) data st) as HS.
    destruct (send _ _ _ _ _) as [[r err] st']. cbn [snd] in *. rewrite HS. apply Hexec.
  - rewrite FindElement_state. unfold find. cbn [Marshal bindE].
    rewrite send_state. apply Hexec.
  - rewrite FindElements_state. unfold find. cbn [Marshal bindE].
    rewrite send_state. apply Hexec.
  - unfold execScript. destruct (execScript_data script args) as [e|data]; [apply Hrefl|].
    rewrite sendAndRead_state. apply Hexec.
  - rewrite GetCookies_state. apply Hexec.
  - unfold Close.
    pose proof (Hexec c "DELETE" (url st.1 "/session/%s/window" [wd_id st.1]) EmptyString st).
    by destruct (execute _ _ _ _ _) as [[? ?] ?].
  - unfold DeleteAllCookies.
    pose proof (Hexec c "DELETE" (url st.1 "/session/%s/cookie" [wd_id st.1]) EmptyString st).
    by destruct (execute _ _ _ _ _) as [[? ?] ?].
  - unfold DeleteCookie.
    pose proof (Hexec c "DELETE" (url st.1 "/session/%s/cookie/%s" [wd_id st.1; name])
                  EmptyString st).
    by destruct (execute _ _ _ _ _) as [[? ?] ?].
Qed.

(** X2. Whatever a caller does with a driver, every request the driver
    puts on the wire, redirected requests and the delete of Quit included,
    carries the header Accept: application/json. *)
Theorem every_request_accepts_json (ops : list Op) (st : State) :
  ∃ added,
    sent (run ops st).2 = sent st.2 ++ added
    ∧ Forall hasAccept added.
Proof.
  revert st. induction ops as [|op ops IH]; intros st; cbn [run foldl].
  { exists []. by rewrite app_nil_r. }
  assert (∃ added, sent (step st op).2 = sent st.2 ++ added ∧ Forall hasAccept added)
    as (a1 & H1 & F1).
  { destruct (isSetContext op) eqn:Hs; [destruct op; try done; exists []; by rewrite app_nil_r|].
    destruct (isCancel op) eqn:Hc; [destruct op; try done; exists []; by rewrite app_nil_r|].
    apply (step_rel (λ st st', ∃ added,
             sent st'.2 = sent st.2 ++ added ∧ Forall hasAccept added)); try done.
    - intros st0. exists []. by rewrite app_nil_r.
    - intros c m a d st0. destruct (execute_added c m a d st0) as (x & ? & _ & ?). eauto.
    - intros c m a d st0. destruct (execute_added c m a d st0) as (x & ? & _ & ?). eauto.
    - intros c st0. destruct (Quit_added c st0) as (x & ? & _ & ?). eauto.
    - intros c m a d st0 sid _.
      destruct (execute_added c m a d st0) as (x & ? & _ & ?). eauto. }
  destruct (IH (step st op)) as (a2 & H2 & F2).
  exists (a1 ++ a2). fold (run ops (step st op)).
  rewrite H2, H1, <- app_assoc. split; [done|by apply Forall_app].
Qed.

End Lifetime.

Section Cancellation.
Context `{P : Platform}.

Lemma Quit_driver ctx wd w :
  (Quit ctx (wd, w)).2.1 = wd
  ∨ (wd_haveQuit wd = false
     ∧ ((Quit ctx (wd, w)).2.1 = set_ctx Background (set_haveQuit true wd)
        ∨ (Quit ctx (wd, w)).2.1
          = set_id EmptyString (set_ctx Background (set_haveQuit true wd)))).
Proof.
  destruct (wd_haveQuit wd) eqn:HQ.
  - left. by rewrite Quit_done.
  - right. split; [done|]. rewrite Quit_first by done. cbv zeta.
    destruct (execute_body _ _ _ _ _) as [[buf [e|]] w1]; auto.
Qed.

(** X3. execute returns ErrCanceled exactly when one of its two checks
    finds the token of wd.ctx fired: no answer of the server and no failure
    of the transport is ever reported as a cancellation. *)
Theorem ErrCanceled_iff_token_fired ctx method addr data wd w :
  (execute ctx method addr data (wd, w)).1.2 = Some ErrCanceled
  ↔ Done (wd_ctx wd) w = true
    ∨ Done (wd_ctx wd) (execute_body wd method addr data w).2 = true.
Proof.
  rewrite execute_cases. cbv zeta.
  pose proof (execute_body_not_canceled wd method addr data w) as HN.
  destruct (Done (wd_ctx wd) w); [by split; auto|].
  destruct (Done (wd_ctx wd) _); [by split; auto|].
  split; [|by intros [?|?]].
  cbn [fst snd]. intros H. by destruct HN.
Qed.

(** X4. A driver whose context is the background context cannot be
    cancelled: as long as SetContext is not called, whatever tokens the
    caller cancels and whatever operations run, the context stays the
    background context, no command returns ErrCanceled, and no command
    triggers Quit. *)
Theorem background_driver_never_cancelled (ops : list Op) (st : State) :
  wd_ctx st.1 = Background →
  forallb (λ op, negb (isSetContext op)) ops = true →
  wd_ctx (run ops st).1 = Background
  ∧ ∀ ctx method addr data,
      let out := execute ctx method addr data (run ops st) in
      out.1.2 ≠ Some ErrCanceled ∧ out.2.1 = (run ops st).1.
Proof.
  intros Hctx Hops.
  assert (wd_ctx (run ops st).1 = Background) as Hrun.
  { revert st Hctx. induction ops as [|op ops IH]; intros st Hctx; [done|].
    cbn [forallb] in Hops. apply andb_prop in Hops as [Hop Hops].
    cbn [run foldl]. apply IH; [done|].
    destruct (isCancel op) eqn:Hc; [by destruct op|].
    apply (step_rel (λ st st', wd_ctx st.1 = Background → wd_ctx st'.1 = Background));
      try done.
    - intros c m a d [wd w] Hb. cbn [fst] in Hb.
      by rewrite execute_unfold, execute_gen_Background.
    - intros c [wd w] Hb. cbn [fst] in Hb.
      destruct (Quit_driver c wd w) as [->|[_ [->| ->]]]; done.
    - intros c m a d [wd w] sid _ Hb. cbn [fst] in Hb.
      by rewrite execute_unfold, execute_gen_Background.
    - by destruct (isSetContext op). }
  split; [done|]. intros ctx method addr data. cbv zeta.
  destruct (run ops st) as [wd w]. cbn [fst] in Hrun.
  rewrite execute_unfold, execute_gen_Background by done. cbn [fst snd].
  split; [apply execute_body_not_canceled|done].
Qed.

(** X5. A driver that has quit and whose context has fired is inert: every
    operation other than SetContext leaves the driver and the requests
    sent as they are, and execute returns ErrCanceled at once. *)
Theorem quit_and_cancelled_driver_is_inert (op : Op) (wd : remoteWebDriver) (w : World) :
  wd_haveQuit wd = true →
  Done (wd_ctx wd) w = true →
  isSetContext op = false →
  (step (wd, w) op).1 = wd
  ∧ sent (step (wd, w) op).2 = sent w
  ∧ ∀ ctx method addr data,
      execute ctx method addr data (wd, w) = ((EmptyString, Some ErrCanceled), (wd, w)).
Proof.
  intros HQ HD Hs.
  assert (∀ ctx method addr data,
            execute ctx method addr data (wd, w) = ((EmptyString, Some ErrCanceled), (wd, w)))
    as Hexec.
  { intros. rewrite execute_cases. cbv zeta. rewrite HD. by rewrite Quit_done. }
  split; [|split; [|done]].
  - destruct (isCancel op) eqn:Hc; [by destruct op|].
    apply (step_rel (λ st st', st = (wd, w) → st'.1 = wd)); try done.
    + by intros st ->.
    + intros c m a d st ->. by rewrite Hexec.
    + by intros c m a d st ->.
    + intros c st ->. by rewrite Quit_done.
    + intros c m a d st sid Hn ->. by rewrite Hexec in Hn.
  - destruct (isCancel op) eqn:Hc; [by destruct op|].
    apply (step_rel (λ st st', st = (wd, w) → sent st'.2 = sent w)); try done.
    + by intros st ->.
    + intros c m a d st ->. by rewrite Hexec.
    + intros c m a d st ->. by rewrite Hexec.
    + intros c st ->. by rewrite Quit_done.
    + intros c m a d st sid Hn ->. by rewrite Hexec in Hn.
Qed.

(** X6. No operation changes the executor URL or the capabilities of a
    driver. *)
Theorem executor_and_capabilities_fixed (ops : list Op) (st : State) :
  wd_executor (run ops st).1 = wd_executor st.1
  ∧ wd_capabilities (run ops st).1 = wd_capabilities st.1.
Proof.
  revert st. induction ops as [|op ops IH]; intros st; [done|].
  cbn [run foldl]. fold (run ops (step st op)).
  destruct (IH (step st op)) as [-> ->].
  destruct (isSetContext op) eqn:Hs; [by destruct op|].
  destruct (isCancel op) eqn:Hc; [by destruct op|].
  apply (step_rel (λ st st', wd_executor st'.1 = wd_executor st.1
                             ∧ wd_capabilities st'.1 = wd_capabilities st.1)); try done.
  - intros c m a d st0. destruct (execute_driverKept c m a d st0) as [->|[w0 ->]]; [done|].
    destruct st0 as [wd w]. cbn [fst].
    destruct (Quit_driver Background wd w0) as [->|[_ [->| ->]]]; done.
  - intros c [wd w]. cbn [fst].
    destruct (Quit_driver c wd w) as [->|[_ [->| ->]]]; done.
  - intros c m a d st0 sid _. cbn [fst].
    destruct (execute_driverKept c m a d st0) as [->|[w0 ->]]; [done|].
    destruct st0 as [wd w]. cbn [fst].
    destruct (Quit_driver Background wd w0) as [->|[_ [->| ->]]]; done.
Qed.

(** X7. A teardown that fails is never tried again. When Quit returns an
    error, the id of the session is still there; from then on, as long as
    NewSession is not called, the id stays as it is, and every later Quit
    returns nil without a request: the driver never sends the delete a
    second time. *)
Theorem failed_teardown_is_final (ctx ctx' : Context) (ops : list Op) (st st1 : State)
    (e : error) :
  Quit ctx st = (Some e, st1) →
  forallb (λ op, match op with OpNewSession _ => false | _ => true end) ops = true →
  wd_haveQuit st.1 = false
  ∧ wd_id (run ops st1).1 = wd_id st.1
  ∧ Quit ctx' (run ops st1) = (None, run ops st1).
Proof.
  intros HQuit Hops.
  assert (wd_haveQuit st.1 = false ∧ wd_haveQuit st1.1 = true ∧ wd_id st1.1 = wd_id st.1)
    as (H0 & H1 & Hid).
  { destruct st as [wd w]. cbn [fst]. destruct (wd_haveQuit wd) eqn:HQ.
    - by rewrite Quit_done in HQuit.
    - rewrite Quit_first in HQuit by done. cbv zeta in HQuit.
      destruct (execute_body _ _ _ _ _) as [[buf [e'|]] w1]; cbn [fst snd] in HQuit; [|done].
      by simplify_eq. }
  split; [done|]. rewrite <- Hid. clear HQuit Hid H0.
  assert (wd_id (run ops st1).1 = wd_id st1.1 ∧ wd_haveQuit (run ops st1).1 = true)
    as [Hrun HrunQ].
  { revert st1 H1. induction ops as [|op ops IH]; intros st1 H1; [done|].
    cbn [forallb] in Hops. apply andb_prop in Hops as [Hop Hops].
    cbn [run foldl]. fold (run ops (step st1 op)).
    pose proof (step_haveQuit op st1 H1) as H2.
    destruct (IH Hops (step st1 op) H2) as [-> ->]. split; [|done].
    pose proof (step_driverKept op st1) as HK.
    destruct op; try done;
      try (destruct HK as [->|[w0 ->]]; [done|by rewrite Quit_haveQuit_mono]). }
  split; [done|].
  destruct (run ops st1) as [wd w]. by apply Quit_done.
Qed.

End Cancellation.

Section Answers.
Context `{P : Platform}.

Lemma execute_body_success wd method addr data w buf :
  (execute_body wd method addr data w).1 = (buf, None) →
  NewRequestError method addr = None
  ∧ ∃ res,
      (httpClient_Do (newRequest wd method addr data) w).1 = inr res
      ∧ ReadAll res = inr buf
      ∧ (StatusCode res < 400)%Z
      ∧ (String.prefix jsonMIMEType (ContentType res) = true →
         ∃ r, Unmarshal buf decode_reply = inr r ∧ Status r = SUCCESS).
Proof.
  unfold execute_body. destruct (NewRequestError method addr); [done|].
  destruct (httpClient_Do _ w) as [[err|res] w1]; [done|]. cbn [fst snd].
  destruct (ReadAll res) as [text|body] eqn:HR; [done|].
  destruct (400 <=? StatusCode res)%Z eqn:H400.
  { by destruct (Unmarshal body decode_reply). }
  apply Z.leb_gt in H400.
  destruct (String.prefix jsonMIMEType (ContentType res)) eqn:Hct.
  - destruct (Unmarshal body decode_reply) as [e|r] eqn:HU; [done|].
    case_bool_decide as Hst; [done|]. intros [= <-].
    split; [done|]. exists res. repeat split; try done.
    intros _. exists r. split; [done|].
    by destruct (decide (Status r = SUCCESS)).
  - intros [= <-]. split; [done|]. exists res. repeat split; try done.
    by rewrite Hct.
Qed.

Lemma decode_reply_ptr_Some buf r r' :
  Unmarshal buf decode_reply = inr r →
  Unmarshal buf decode_reply_ptr = inr (Some r') →
  r' = r.
Proof.
  unfold Unmarshal. destruct (scan buf) as [j|]; [|done].
  unfold decode_reply_ptr. intros H. destruct j; try done; rewrite H; cbn; congruence.
Qed.

(** X8. When send returns a reply and no error, no check found the token
    fired and nothing but the command ran; the answer had a status below
    400 and the reply is the envelope decoded from its body. If the answer
    announced JSON, the status of that envelope is SUCCESS. *)
Theorem send_reply_is_success ctx method addr data wd w r st' :
  send ctx method addr data (wd, w) = ((Some r, None), st') →
  st' = (wd, (execute_body wd method addr data w).2)
  ∧ NewRequestError method addr = None
  ∧ ∃ res buf,
      (httpClient_Do (newRequest wd method addr data) w).1 = inr res
      ∧ ReadAll res = inr buf
      ∧ (StatusCode res < 400)%Z
      ∧ Unmarshal buf decode_reply_ptr = inr (Some r)
      ∧ (String.prefix jsonMIMEType (ContentType res) = true → Status r = SUCCESS).
Proof.
  unfold send. rewrite execute_cases. cbv zeta.
  destruct (Done (wd_ctx wd) w); [done|].
  destruct (Done (wd_ctx wd) _); [done|].
  destruct (execute_body wd method addr data w) as [[buf [e|]] w1] eqn:HB; [done|].
  cbn [fst snd]. case_bool_decide; [|done].
  destruct (Unmarshal buf decode_reply_ptr) as [e|r'] eqn:HU; [done|].
  intros [= -> <-]. split; [done|].
  destruct (execute_body_success wd method addr data w buf) as (HN & res & HD & HR & Hlt & Hj).
  { by rewrite HB. }
  split; [done|]. exists res, buf. repeat split; try done.
  intros Hct. destruct (Hj Hct) as (r0 & Hr0 & Hs).
  by rewrite (decode_reply_ptr_Some buf r0 r).
Qed.

(** X9. The status of the envelope is looked at only when the answer
    announces JSON. For a success whose Content-Type does not begin with
    application/json, send returns whatever envelope the body holds, with a
    nil error, also when the status of that envelope is not SUCCESS. *)
Theorem plain_content_type_skips_status ctx method addr data wd w res w1 buf r :
  NewRequestError method addr = None →
  httpClient_Do (newRequest wd method addr data) w = (inr res, w1) →
  ReadAll res = inr buf →
  (StatusCode res < 400)%Z →
  String.prefix jsonMIMEType (ContentType res) = false →
  0 < String.length buf →
  Unmarshal buf decode_reply_ptr = inr (Some r) →
  Done (wd_ctx wd) w = false →
  Done (wd_ctx wd) w1 = false →
  send ctx method addr data (wd, w) = ((Some r, None), (wd, w1)).
Proof.
  intros HN HD HR Hlt Hct Hlen HU H1 H2.
  assert (execute_body wd method addr data w = ((buf, None), w1)) as HB.
  { rewrite (execute_body_answered _ _ _ _ _ res w1 buf) by done.
    unfold classify. rewrite Hct.
    by assert ((400 <=? StatusCode res)%Z = false) as -> by (apply Z.leb_gt; lia). }
  unfold send. rewrite execute_not_cancelled; rewrite ?HB; try done.
  cbn [fst snd]. rewrite bool_decide_eq_true_2 by done. by rewrite HU.
Qed.

(** X10. A success whose body is the JSON text null, whatever its
    Content-Type, gives a nil reply and a nil error, as an empty body does:
    stringCommand, boolCommand and stringsCommand then panic on the nil
    pointer. *)
Theorem null_body_nil_reply ctx wd w urlTemplate res w1 buf :
  NewRequestError "GET" (url wd urlTemplate [wd_id wd]) = None →
  httpClient_Do (newRequest wd "GET" (url wd urlTemplate [wd_id wd]) EmptyString) w
    = (inr res, w1) →
  ReadAll res = inr buf →
  (StatusCode res < 400)%Z →
  scan buf = Some JNull →
  0 < String.length buf →
  Done (wd_ctx wd) w = false →
  Done (wd_ctx wd) w1 = false →
  send ctx "GET" (url wd urlTemplate [wd_id wd]) EmptyString (wd, w) = ((None, None), (wd, w1))
  ∧ stringCommand ctx urlTemplate (wd, w) = (Panicked nilDereference, (wd, w1))
  ∧ boolCommand ctx urlTemplate (wd, w) = (Panicked nilDereference, (wd, w1))
  ∧ stringsCommand ctx urlTemplate (wd, w) = (Panicked nilDereference, (wd, w1)).
Proof.
  intros HN HD HR Hlt Hscan Hlen H1 H2.
  assert (execute_body wd "GET" (url wd urlTemplate [wd_id wd]) EmptyString w
          = ((buf, None), w1)) as HB.
  { rewrite (execute_body_answered _ _ _ _ _ res w1 buf) by done.
    unfold classify, Unmarshal. rewrite Hscan. cbn.
    assert ((400 <=? StatusCode res)%Z = false) as -> by (apply Z.leb_gt; lia).
    by destruct (String.prefix jsonMIMEType (ContentType res)). }
  assert (send ctx "GET" (url wd urlTemplate [wd_id wd]) EmptyString (wd, w)
          = ((None, None), (wd, w1))) as HS.
  { unfold send. rewrite execute_not_cancelled; rewrite ?HB; try done.
    cbn [fst snd]. rewrite bool_decide_eq_true_2 by done.
    unfold Unmarshal. by rewrite Hscan. }
  split; [done|].
  unfold stringCommand, boolCommand, stringsCommand, sendAndRead. cbn [fst snd].
  by rewrite HS.
Qed.

(** X11. There is no retry. When the first answer is not a redirect, the
    body of execute has put exactly one request on the wire; a failure of
    the transport is returned as it is. *)
Theorem one_request_without_redirect wd method addr data w :
  NewRequestError method addr = None →
  (∀ next, answer (RoundTrip w (newRequest wd method addr data)) ≠ Redirected next) →
  sent (execute_body wd method addr data w).2 = sent w ++ [newRequest wd method addr data]
  ∧ ∀ text,
      answer (RoundTrip w (newRequest wd method addr data)) = Failed text →
      (execute_body wd method addr data w).1 = (EmptyString, Some (libraryError text)).
Proof.
  intros HN Hno. rewrite execute_body_world, HN.
  unfold execute_body. rewrite HN. unfold httpClient_Do. cbn [clientDo]. unfold hop.
  destruct (answer (RoundTrip w (newRequest wd method addr data))) as [text|next|res].
  - split; [done|]. by intros ? [= <-].
  - by destruct (Hno next).
  - split; [done|]. by intros.
Qed.

End Answers.

Section Marshalling.
Context `{P : Platform}.

Lemma Marshal_encodable : ∀ v,
  if encodable v then ∃ j, Marshal v = inr j else Marshal v = inl UnsupportedValueError.
Proof.
  fix IH 1. intros [| | | |vs|ms| | |]; cbn [encodable Marshal]; try by eexists.
  - assert (if forallb encodable vs
            then ∃ js, (fix all (vs : list GoValue) : error + list Json :=
                          match vs with
                          | [] => inr []
                          | v :: vs' => do! j ← Marshal v; do! js ← all vs'; inr (j :: js)
                          end) vs = inr js
            else (fix all (vs : list GoValue) : error + list Json :=
                    match vs with
                    | [] => inr []
                    | v :: vs' => do! j ← Marshal v; do! js ← all vs'; inr (j :: js)
                    end) vs = inl UnsupportedValueError) as H.
    { induction vs as [|v vs IHvs]; cbn [forallb]; [by eexists|].
      specialize (IH v). destruct (encodable v); cbn [andb].
      - destruct IH as [j ->]. cbn [bindE].
        destruct (forallb encodable vs).
        + destruct IHvs as [js ->]. by eexists.
        + by rewrite IHvs.
      - by rewrite IH. }
    destruct (forallb encodable vs).
    + destruct H as [js ->]. by eexists.
    + by rewrite H.
  - assert (if forallb (λ kv, encodable kv.2) ms
            then ∃ js, (fix all (ms : list (string * GoValue)) : error + list (string * Json) :=
                          match ms with
                          | [] => inr []
                          | (k, v) :: ms' =>
                              do! j ← Marshal v; do! js ← all ms'; inr ((k, j) :: js)
                          end) ms = inr js
            else (fix all (ms : list (string * GoValue)) : error + list (string * Json) :=
                    match ms with
                    | [] => inr []
                    | (k, v) :: ms' =>
                        do! j ← Marshal v; do! js ← all ms'; inr ((k, j) :: js)
                    end) ms = inl UnsupportedValueError) as H.
    { induction ms as [|[k v] ms IHms]; cbn [forallb]; [by eexists|].
      specialize (IH v). cbn [snd]. destruct (encodable v); cbn [andb].
      - destruct IH as [j ->]. cbn [bindE].
        destruct (forallb (λ kv, encodable kv.2) ms).
        + destruct IHms as [js ->]. by eexists.
        + by rewrite IHms.
      - by rewrite IH. }
    destruct (forallb (λ kv, encodable kv.2) ms).
    + destruct H as [js ->]. by eexists.
    + by rewrite H.
Qed.

Lemma Marshal_error v e : Marshal v = inl e → e = UnsupportedValueError.
Proof.
  pose proof (Marshal_encodable v) as H. destruct (encodable v).
  - destruct H as [j ->]. done.
  - rewrite H. by intros [= <-].
Qed.

Lemma rewriteArg_encodable arg : encodable (rewriteArg arg) = encodable arg.
Proof. by destruct arg. Qed.

Lemma rewriteArgs_encodable args :
  forallb encodable (rewriteArgs args) = forallb encodable args.
Proof.
  rewrite rewriteArgs_spec. induction args as [|a args IH]; [done|].
  cbn. by rewrite rewriteArg_encodable, IH.
Qed.

(** X12. json.Marshal fails exactly on a value that holds, at any depth, a
    value it cannot encode, and the error is the unsupported-value error. A
    command given such parameters returns that error before anything
    happens: no check of the token, no Quit, no request, also when the
    context of the driver has fired. This holds for voidCommand, for the
    arguments of a script, and for NewSession with such capabilities. *)
Theorem unencodable_parameters_send_nothing (ctx : Context) (st : State) :
  (∀ v, Marshal v = inl UnsupportedValueError ↔ encodable v = false)
  ∧ (∀ urlTemplate params,
       encodable params = false →
       voidCommand ctx urlTemplate (Some params) st = (Some UnsupportedValueError, st))
  ∧ (∀ script args suffix,
       forallb encodable args = false →
       execScript ctx script (Some args) suffix st
       = (Return (None, Some UnsupportedValueError), st))
  ∧ (encodable (wd_capabilities st.1) = false →
     NewSession ctx st = (Return (EmptyString, Some UnsupportedValueError), st)).
Proof.
  split; [|split; [|split]].
  - intros v. pose proof (Marshal_encodable v) as H. destruct (encodable v).
    + destruct H as [j ->]. done.
    + by rewrite H.
  - intros t p Hp. unfold voidCommand.
    pose proof (Marshal_encodable p) as H. rewrite Hp in H. by rewrite H.
  - intros script args suffix Hargs. unfold execScript, execScript_data.
    pose proof (Marshal_encodable
                  (GoMap [("args", GoSlice (rewriteArgs args)); ("script", GoString script)]))
      as H.
    cbn [encodable forallb snd] in H. rewrite rewriteArgs_encodable, Hargs in H.
    cbn [andb] in H. by rewrite H.
  - intros Hc. unfold NewSession.
    pose proof (Marshal_encodable (GoMap [("desiredCapabilities", wd_capabilities st.1)])) as H.
    cbn [encodable forallb snd] in H. rewrite Hc in H. cbn [andb] in H. by rewrite H.
Qed.

(** X13. execScript overwrites the handles in the slice of the caller. A
    second call with the slice as the first call left it posts the same
    bytes as the first: rewriting is idempotent and keeps the number of
    arguments. *)
Theorem rewritten_arguments_post_the_same (script : string) (args : list GoValue) :
  rewriteArgs (rewriteArgs args) = rewriteArgs args
  ∧ length (rewriteArgs args) = length args
  ∧ execScript_data script (Some (rewriteArgs args)) = execScript_data script (Some args).
Proof.
  assert (rewriteArgs (rewriteArgs args) = rewriteArgs args) as H.
  { rewrite !rewriteArgs_spec, <- list_fmap_compose.
    apply list_fmap_ext. intros i x _. by destruct x. }
  split; [done|]. split; [by rewrite rewriteArgs_spec, length_fmap|].
  unfold execScript_data. by rewrite H.
Qed.

End Marshalling.

Section Creation.
Context `{P : Platform}.

Lemma decode_reply_ptr_not_canceled v : decode_reply_ptr v ≠ inl ErrCanceled.
Proof.
  pose proof (decode_reply_not_canceled v) as H.
  unfold decode_reply_ptr, bindE. destruct v; try done;
    destruct (decode_reply _); congruence.
Qed.

(** X1. NewRemote does not use the context it is given: the driver is made
    with the background context, so the creation of the session is never
    cancelled and never triggers Quit, also when the token of the context
    passed in has fired. It returns a driver exactly when it returns no
    error; that driver has the executor asked for, the default one for the
    empty string, the capabilities asked for, the background context, has
    not quit, and holds the session id of the reply. The only panic is the
    nil reply. When http.NewRequest accepts the URL, the first request of
    the call is the POST to the session resource of the executor. *)
Theorem NewRemote_result (ctx : Context) (capabilities : GoValue) (executor : string)
    (w : World) :
  let wd0 := newDriver capabilities executor in
  NewRemote ctx capabilities executor w = NewRemote Background capabilities executor w
  ∧ match NewRemote ctx capabilities executor w with
    | (Return (Some wd, None), w') =>
        wd_executor wd = (if String.eqb executor EmptyString then defaultExecutor else executor)
        ∧ wd_capabilities wd = capabilities
        ∧ wd_ctx wd = Background
        ∧ wd_haveQuit wd = false
        ∧ ∃ r message,
            Marshal (GoMap [("desiredCapabilities", capabilities)]) = inr message
            ∧ send ctx "POST" (url wd0 "/session" []) (encode message) (wd0, w)
              = ((Some r, None), (wd0, w'))
            ∧ wd_id wd = SessionId r
    | (Return (None, Some e), w') => e ≠ ErrCanceled
    | (Return (Some _, Some _), _) | (Return (None, None), _) => False
    | (Panicked p, _) => p = nilDereference
    end
  ∧ (∀ message,
       Marshal (GoMap [("desiredCapabilities", capabilities)]) = inr message →
       NewRequestError "POST" (url wd0 "/session" []) = None →
       ∃ rest,
         sent (NewRemote ctx capabilities executor w).2
         = sent w ++ newRequest wd0 "POST" (url wd0 "/session" []) (encode message) :: rest).
Proof.
  cbv zeta. split; [done|].
  set (wd0 := newDriver capabilities executor).
  assert (wd_capabilities wd0 = capabilities) as Hcaps by done.
  unfold NewRemote, NewSession. cbn [fst snd]. fold wd0. rewrite Hcaps.
  destruct (Marshal (GoMap [("desiredCapabilities", capabilities)])) as [e|message] eqn:HM.
  { split; [|by intros m [=]]. apply Marshal_error in HM. by rewrite HM. }
  pose proof (execute_body_not_canceled wd0 "POST" (url wd0 "/session" []) (encode message) w)
    as HN.
  pose proof (execute_body_sent wd0 "POST" (url wd0 "/session" []) (encode message) w) as HS.
  assert (∀ (o : nat) s,
            (∀ m, @inr error Json message = inr m → NewRequestError "POST" (url wd0 "/session" []) = None →
                  ∃ rest, sent s = sent w ++
                     newRequest wd0 "POST" (url wd0 "/session" []) (encode m) :: rest) ↔
            (NewRequestError "POST" (url wd0 "/session" []) = None →
             ∃ rest, sent s = sent w ++
                newRequest wd0 "POST" (url wd0 "/session" []) (encode message) :: rest)) as Hm.
  { intros _ s. split; [by intros H; apply H|by intros H m [= <-]]. }
  unfold send. rewrite execute_unfold, execute_gen_Background by done.
  destruct (execute_body wd0 "POST" (url wd0 "/session" []) (encode message) w)
    as [[buf [e|]] w1] eqn:HB; cbn [fst snd] in *.
  { split; [congruence|]. by apply (Hm 0 w1). }
  case_bool_decide as Hlen; cbn [fst snd].
  2: { split; [done|]. by apply (Hm 0 w1). }
  pose proof decode_reply_ptr_not_canceled as HD.
  unfold Unmarshal. destruct (scan buf) as [j|] eqn:Hscan; cbn [fst snd].
  2: { split; [done|]. by apply (Hm 0 w1). }
  destruct (decode_reply_ptr j) as [e|[r|]] eqn:Hj; cbn [fst snd].
  - split; [intros ->; by eapply HD|]. by apply (Hm 0 w1).
  - split; [|by apply (Hm 0 w1)].
    split; [done|]. split; [done|]. split; [done|]. split; [done|].
    exists r, message. split; [done|]. split; [|done].
    unfold send. rewrite execute_unfold, execute_gen_Background by done.
    rewrite HB. cbn [fst snd]. rewrite bool_decide_eq_true_2 by done.
    unfold Unmarshal. by rewrite Hscan, Hj.
  - split; [done|]. by apply (Hm 0 w1).
Qed.

End Creation.

Section Catalog.

Lemma errorCodes_entries status message :
  errorCodes !! status = Some message →
  (status, message) ∈
    [(7%Z, "no such element"); (8%Z, "no such frame"); (9%Z, "unknown command");
     (10%Z, "stale element reference"); (11%Z, "element not visible");
     (12%Z, "invalid element state"); (13%Z, "unknown error");
     (15%Z, "element is not selectable"); (17%Z, "javascript error");
     (19%Z, "xpath lookup error"); (21%Z, "timeout"); (23%Z, "no such window");
     (24%Z, "invalid cookie domain"); (25%Z, "unable to set cookie");
     (26%Z, "unexpected alert open"); (27%Z, "no alert open"); (28%Z, "script timeout");
     (29%Z, "invalid element coordinates"); (32%Z, "invalid selector")].
Proof. apply elem_of_list_to_map_2. Qed.

Lemma catalog_entry_not_unknown (status : Z) (message : string) (n : Z) :
  errorCodes !! status = Some message → message ≠ "unknown error - " +:+ pretty n.
Proof.
  intros H Heq. apply errorCodes_entries in H.
  repeat (apply elem_of_cons in H as [H|H]; [by simplify_eq/=|]).
  by apply elem_of_nil in H.
Qed.

(** X14. The catalog message tells the status: two statuses with the same
    catalog message are the same status. The entries of errorCodes are
    pairwise different, none of them has the form of the message made for
    an unknown status, and that message holds the status in decimal. *)
Theorem catalogMessage_determines_status (a b : Z) :
  catalogMessage a = catalogMessage b → a = b.
Proof.
  unfold catalogMessage.
  destruct (errorCodes !! a) as [ma|] eqn:Ha; destruct (errorCodes !! b) as [mb|] eqn:Hb.
  - intros ->. apply errorCodes_entries in Ha, Hb.
    repeat (apply elem_of_cons in Ha as [Ha|Ha];
            [injection Ha as -> ->;
             repeat (apply elem_of_cons in Hb as [Hb|Hb]; [by simplify_eq|]);
             by apply elem_of_nil in Hb|]).
    by apply elem_of_nil in Ha.
  - intros H. by destruct (catalog_entry_not_unknown a ma b).
  - intros H. by destruct (catalog_entry_not_unknown b mb a).
  - intros H. cbn in H. simplify_eq. by apply (inj pretty).
Qed.

End Catalog.

Section Decoding.
Context `{P : Platform}.

Lemma element_store_other ms : ∀ e,
  Forall (λ kv : string * Json, keyIs "ELEMENT" kv.1 = false) ms →
  storeMembers element_store ms e = inr e.
Proof.
  induction ms as [|[k v] ms IH]; intros e Hms; [done|].
  inversion Hms as [|? ? Hk Hrest]; subst. cbn [storeMembers fst] in *.
  unfold element_store at 1. rewrite Hk. cbn [bindE]. by apply IH.
Qed.

(** X15. A find reply whose value holds no element id is not an error for
    FindElement: for the value null, and for an object none of whose keys
    is ELEMENT (the empty object among them), it returns a handle with the
    empty id and a nil error. A reply without any value makes it panic with
    the syntax error of the empty input. *)
Theorem find_reply_without_id ctx by_ value st r st' :
  find ctx by_ value EmptyString EmptyString st = ((Some r, None), st') →
  (Value r = Some JNull →
   FindElement ctx by_ value st = (Return (Some (mkRemoteWE EmptyString), None), st'))
  ∧ (∀ ms, Value r = Some (JObject ms) →
       Forall (λ kv : string * Json, keyIs "ELEMENT" kv.1 = false) ms →
       FindElement ctx by_ value st = (Return (Some (mkRemoteWE EmptyString), None), st'))
  ∧ (Value r = None →
     FindElement ctx by_ value st = (Panicked (decodePanic SyntaxError None), st')).
Proof.
  intros Hfind. unfold FindElement. rewrite Hfind.
  unfold decodeElement, readValue. split; [|split].
  - by intros ->.
  - intros ms -> Hms. cbn [UnmarshalRaw decode_element storeStruct].
    by rewrite element_store_other.
  - intros HV. rewrite HV. cbn [UnmarshalRaw]. f_equal. f_equal. f_equal. exact HV.
Qed.

Lemma expiryLoop_panics n : ∀ i expiries cookies,
  i ≤ length expiries → length expiries < i + n →
  expiryLoop n i expiries cookies
  = Panicked (indexOutOfRange (length expiries) (length expiries)).
Proof.
  induction n as [|n IH]; intros i expiries cookies Hi Hn; [lia|].
  cbn [expiryLoop]. destruct (expiries !! i) as [number|] eqn:Hnum.
  - apply lookup_lt_Some in Hnum.
    destruct (Float64 number); apply IH; lia.
  - apply lookup_ge_None in Hnum. by replace i with (length expiries) by lia.
Qed.

Lemma withoutExpiry_patch number c :
  withoutExpiry (patchExpiry number c) = withoutExpiry c.
Proof. unfold patchExpiry. by destruct (Float64 number). Qed.

(** X16. parseCookieExpiry returns the cookies untouched when the raw value
    does not decode as the list of expiries. When it decodes, the outcome
    depends on the lengths alone: with at least as many expiries as cookies
    it returns as many cookies as it was given, each equal to the one given
    in every field but Expiry; with fewer it panics, the index out of
    range being the number of expiries. *)
Theorem parseCookieExpiry_outcome (cookies : list Cookie) (raw : option Json) :
  match UnmarshalRaw raw decode_expiries with
  | inl _ => parseCookieExpiry cookies raw = Return cookies
  | inr expiries =>
      if decide (length cookies ≤ length expiries)
      then ∃ patched,
             parseCookieExpiry cookies raw = Return patched
             ∧ length patched = length cookies
             ∧ withoutExpiry <$> patched = withoutExpiry <$> cookies
      else parseCookieExpiry cookies raw
           = Panicked (indexOutOfRange (length expiries) (length expiries))
  end.
Proof.
  unfold parseCookieExpiry.
  destruct (UnmarshalRaw raw decode_expiries) as [e|expiries]; [done|].
  case_decide as Hlen.
  - destruct (expiryLoop_spec (length cookies) 0 expiries cookies)
      as (patched & Hp & Hl & Hj); [lia|].
    exists patched. split; [done|]. split; [done|].
    apply list_eq. intros j. rewrite !list_lookup_fmap, Hj.
    destruct (cookies !! j) as [c|]; [|done]. cbn.
    case_bool_decide; [|done]. by rewrite withoutExpiry_patch.
  - apply expiryLoop_panics; lia.
Qed.

Lemma foldl_insert_lookup (ms : list (string * Json)) : ∀ (m : gmap string Json) k,
  foldl (λ m kv, <[kv.1 := kv.2]> m) m ms !! k =
  match last (filter (λ kv, kv.1 = k) ms) with
  | Some kv => Some kv.2
  | None => m !! k
  end.
Proof.
  induction ms as [|[k' v] ms IH]; intros m k; [done|].
  cbn [foldl fst snd]. rewrite IH. rewrite filter_cons. cbn [fst].
  case_decide as Hk.
  - subst. rewrite last_cons, lookup_insert_eq. by destruct (last _).
  - rewrite lookup_insert_ne by done. done.
Qed.

(** X17. Capabilities never reports a decoding error. Whenever its command
    returns a reply, it returns a nil error: for a value that is an object
    the map of its members, a later member of the same key replacing an
    earlier one; for any other value, or none, the nil map. *)
Theorem Capabilities_drops_decode_error ctx st r st' :
  send ctx "GET" (url st.1 "/session/%s" [wd_id st.1]) EmptyString st = ((Some r, None), st') →
  ∃ v,
    Capabilities ctx st = (Return (v, None), st')
    ∧ (∀ ms, Value r = Some (JObject ms) →
         ∃ m, v = Some m
              ∧ ∀ k, m !! k = (λ kv : string * Json, kv.2) <$> last (filter (λ kv, kv.1 = k) ms))
    ∧ ((∀ ms, Value r ≠ Some (JObject ms)) → v = None).
Proof.
  intros Hsend. unfold Capabilities. rewrite Hsend. cbn [readValue].
  destruct (Value r) as [[| | | | |ms]|] eqn:HV; cbn [UnmarshalRaw decode_Capabilities results fst].
  1-5,7: (eexists; split; [done|]; split; [by intros|done]).
  eexists. split; [done|]. split.
  - intros ms' [= <-]. eexists. split; [done|]. intros k.
    rewrite foldl_insert_lookup, lookup_empty. by destruct (last _).
  - intros H. by destruct (H ms).
Qed.

End Decoding.

Section Keys.
Context `{P : Platform}.
Variable runeHigh : string → string * nat.

Lemma rangeKeys_length rest : ∀ skip i chars,
  length (rangeKeys runeHigh skip i rest chars) = length chars.
Proof.
  induction rest as [|b rest IH]; intros skip i chars; [done|].
  cbn [rangeKeys]. destruct skip as [|skip]; [|apply IH].
  destruct (rangeRune runeHigh (String b rest)) as [c extra].
  by rewrite IH, length_insert.
Qed.

Lemma length_list_ascii s : length (String.list_ascii_of_string s) = String.length s.
Proof. induction s as [|b s IH]; [done|]. cbn. by rewrite IH. Qed.

Lemma rangeKeys_ascii rest : ∀ i seen,
  Forall (λ b, (N_of_ascii b < 128)%N) (String.list_ascii_of_string rest) →
  i = length seen →
  rangeKeys runeHigh 0 i rest (seen ++ replicate (String.length rest) EmptyString)
  = seen ++ ((λ b, String b EmptyString) <$> String.list_ascii_of_string rest).
Proof.
  induction rest as [|b rest IH]; intros i seen Hascii Hi; [done|].
  cbn [String.list_ascii_of_string] in Hascii. inversion Hascii as [|? ? Hb Hrest]; subst.
  cbn [rangeKeys rangeRune String.length replicate String.list_ascii_of_string fmap list_fmap].
  rewrite (proj2 (N.ltb_lt _ _) Hb).
  rewrite insert_app_r_alt by lia. rewrite Nat.sub_diag. cbn [insert list_insert].
  rewrite (cons_middle (String b EmptyString)), app_assoc.
  rewrite (IH (S (length seen)) (seen ++ [String b EmptyString])); [|done|].
  - by rewrite <- app_assoc.
  - rewrite length_app. cbn. lia.
Qed.

(** X18. SendKeys posts one string for every byte offset of keys: the
    list has the length of keys in bytes. For keys made of bytes below
    0x80 the strings are the characters of keys, one each, in order; the
    parameters can always be marshalled, so the only errors are those of
    the command. *)
Theorem SendKeys_characters (keys : string) :
  length (keyChars runeHigh keys) = String.length keys
  ∧ (Forall (λ b, (N_of_ascii b < 128)%N) (String.list_ascii_of_string keys) →
     keyChars runeHigh keys = (λ b, String b EmptyString) <$> String.list_ascii_of_string keys)
  ∧ ∀ elem ctx st,
      ∃ params,
        Marshal (GoMap [("value", GoSlice (GoString <$> keyChars runeHigh keys))]) = inr params
        ∧ SendKeys runeHigh elem ctx keys st
          = ((send ctx "POST"
                (url st.1 (Sprintf "/session/%%s/element/%s/value" [elem_id elem]) [wd_id st.1])
                (encode params) st).1.2,
             (send ctx "POST"
                (url st.1 (Sprintf "/session/%%s/element/%s/value" [elem_id elem]) [wd_id st.1])
                (encode params) st).2).
Proof.
  split; [|split].
  - unfold keyChars. by rewrite rangeKeys_length, length_replicate.
  - intros Hascii. unfold keyChars.
    exact (rangeKeys_ascii keys 0 [] Hascii eq_refl).
  - intros elem ctx st. unfold SendKeys, voidCommand. cbv zeta.
    assert (encodable (GoMap [("value", GoSlice (GoString <$> keyChars runeHigh keys))]) = true)
      as He.
    { cbn [encodable forallb snd]. rewrite andb_true_r.
      induction (keyChars runeHigh keys) as [|c cs IH]; [done|]. cbn. exact IH. }
    pose proof (Marshal_encodable
                  (GoMap [("value", GoSlice (GoString <$> keyChars runeHigh keys))])) as H.
    rewrite He in H. destruct H as [params Hp]. exists params. split; [done|].
    rewrite Hp. cbn [bindE].
    by destruct (send _ _ _ _ _) as [[r err] st'].
Qed.

End Keys.

(** * Further worked examples *)

(** X4 at work: the caller cancels a token and runs a command on a driver
    with the background context. *)
Lemma background_driver_never_cancelled_witness :
  let P := Demo.platform (Demo.always (Demo.ok "text/plain" "ok")) in
  let ops := [OpCancel 1; OpVoidCommand Background "/session/%s/refresh" None] in
  wd_ctx (run ops (Demo.driver, Demo.world)).1 = Background.
Proof.
  cbv zeta.
  apply (background_driver_never_cancelled
           (P := Demo.platform (Demo.always (Demo.ok "text/plain" "ok")))
           [OpCancel 1; OpVoidCommand Background "/session/%s/refresh" None]
           (Demo.driver, Demo.world)); reflexivity.
Defined.

(** X5 at work: a driver that has quit, its context set to one whose token
    1 has fired; Close sends nothing. *)
Lemma quit_and_cancelled_driver_is_inert_witness :
  let P := Demo.platform (Demo.always (Demo.ok "text/plain" "ok")) in
  let wd := set_ctx (WithCancel 1) (set_haveQuit true Demo.driver) in
  sent (step (wd, mkWorld [] {[1]}) (OpClose Background)).2 = [].
Proof.
  cbv zeta.
  apply (quit_and_cancelled_driver_is_inert
           (P := Demo.platform (Demo.always (Demo.ok "text/plain" "ok")))
           (OpClose Background) (set_ctx (WithCancel 1) (set_haveQuit true Demo.driver))
           (mkWorld [] {[1]})).
  - reflexivity.
  - vm_compute. reflexivity.
  - reflexivity.
Defined.

(** X7 at work: the server answers the delete with a 500; the id s1 stays
    and the second Quit returns nil. *)
Lemma failed_teardown_is_final_witness :
  let P := Demo.platform
             (Demo.always (mkResponse "500 Internal Server Error" 500 "text/plain" (inr "no"))) in
  let st1 := (Quit Background (Demo.driver, Demo.world)).2 in
  wd_id (run [OpClose Background] st1).1 = "s1"
  ∧ Quit Background (run [OpClose Background] st1) = (None, run [OpClose Background] st1).
Proof.
  cbv zeta.
  edestruct (failed_teardown_is_final
               (P := Demo.platform
                       (Demo.always
                          (mkResponse "500 Internal Server Error" 500 "text/plain" (inr "no"))))
               Background Background [OpClose Background] (Demo.driver, Demo.world))
    as (_ & Hid & HQ).
  - vm_compute. reflexivity.
  - reflexivity.
  - split; [exact Hid|exact HQ].
Defined.

(** X8 at work: a reply with status 0 under a JSON Content-Type. *)
Lemma send_reply_is_success_witness :
  let P := Demo.platform
             (Demo.always
                (Demo.ok "application/json"
                   (Demo.text "{'sessionId':'s1','status':0,'value':'t'}"))) in
  NewRequestError "GET" "http://h/x" = None
  ∧ (send Background "GET" "http://h/x" EmptyString (Demo.driver, Demo.world)).2.1
    = Demo.driver.
Proof.
  cbv zeta.
  edestruct (send_reply_is_success
               (P := Demo.platform
                       (Demo.always
                          (Demo.ok "application/json"
                             (Demo.text "{'sessionId':'s1','status':0,'value':'t'}"))))
               Background "GET" "http://h/x" EmptyString Demo.driver Demo.world)
    as (Hst & HN & _).
  - vm_compute. reflexivity.
  - split; [exact HN|]. vm_compute. reflexivity.
Defined.

(** X9 at work: an envelope with status 7 behind text/plain is returned as
    a success. *)
Lemma plain_content_type_skips_status_witness :
  let P := Demo.platform
             (Demo.always (Demo.ok "text/plain" (Demo.text "{'status':7,'value':null}"))) in
  (send Background "GET" "http://h/x" EmptyString (Demo.driver, Demo.world)).1
  = (Some (mkReply EmptyString 7 (Some JNull)), None).
Proof.
  cbv zeta.
  erewrite (plain_content_type_skips_status
              (P := Demo.platform
                      (Demo.always (Demo.ok "text/plain" (Demo.text "{'status':7,'value':null}"))))
              Background "GET" "http://h/x" EmptyString Demo.driver Demo.world).
  - reflexivity.
  - reflexivity.
  - vm_compute. reflexivity.
  - reflexivity.
  - vm_compute. reflexivity.
  - reflexivity.
  - vm_compute. lia.
  - vm_compute. reflexivity.
  - reflexivity.
  - reflexivity.
Defined.

(** X10 at work: the body null under a JSON Content-Type. *)
Lemma null_body_nil_reply_witness :
  let P := Demo.platform (Demo.always (Demo.ok "application/json" "null")) in
  (stringCommand Background "/session/%s/title" (Demo.driver, Demo.world)).1
  = Panicked nilDereference.
Proof.
  cbv zeta.
  edestruct (null_body_nil_reply
               (P := Demo.platform (Demo.always (Demo.ok "application/json" "null")))
               Background Demo.driver Demo.world "/session/%s/title")
    as (_ & H & _).
  - reflexivity.
  - vm_compute. reflexivity.
  - reflexivity.
  - vm_compute. reflexivity.
  - vm_compute. reflexivity.
  - vm_compute. lia.
  - reflexivity.
  - reflexivity.
  - rewrite H. reflexivity.
Defined.

(** X11 at work: one answer, one request. *)
Lemma one_request_without_redirect_witness :
  let P := Demo.platform (Demo.always (Demo.ok "text/plain" "ok")) in
  sent (execute_body Demo.driver "GET" "http://h/x" EmptyString Demo.world).2
  = [newRequest Demo.driver "GET" "http://h/x" EmptyString].
Proof.
  cbv zeta.
  apply (one_request_without_redirect
           (P := Demo.platform (Demo.always (Demo.ok "text/plain" "ok")))
           Demo.driver "GET" "http://h/x" EmptyString Demo.world).
  - reflexivity.
  - intros next. vm_compute. discriminate.
Defined.

(** X14 at work. *)
Lemma catalogMessage_determines_status_witness :
  catalogMessage 11 = "element not visible" ∧ 11%Z = 11%Z.
Proof.
  split; [reflexivity|].
  exact (catalogMessage_determines_status 11 11 eq_refl).
Defined.

(** X15 at work: the value is the empty object. *)
Lemma find_reply_without_id_witness :
  let P := Demo.platform
             (Demo.always (Demo.ok "application/json" (Demo.text "{'status':0,'value':{}}"))) in
  (FindElement Background "id" "chuk" (Demo.driver, Demo.world)).1
  = Return (Some (mkRemoteWE EmptyString), None).
Proof.
  cbv zeta.
  edestruct (find_reply_without_id
               (P := Demo.platform
                       (Demo.always
                          (Demo.ok "application/json" (Demo.text "{'status':0,'value':{}}"))))
               Background "id" "chuk" (Demo.driver, Demo.world))
    as (_ & H & _).
  - vm_compute. reflexivity.
  - rewrite (H []); [reflexivity|reflexivity|constructor].
Defined.

(** X17 at work: the value is a number; Capabilities returns the nil map
    and a nil error. *)
Lemma Capabilities_drops_decode_error_witness :
  let P := Demo.platform
             (Demo.always (Demo.ok "application/json" (Demo.text "{'status':0,'value':5}"))) in
  (Capabilities Background (Demo.driver, Demo.world)).1 = Return (None, None).
Proof.
  cbv zeta.
  edestruct (Capabilities_drops_decode_error
               (P := Demo.platform
                       (Demo.always
                          (Demo.ok "application/json" (Demo.text "{'status':0,'value':5}"))))
               Background (Demo.driver, Demo.world))
    as (v & Hc & _ & Hnone).
  - vm_compute. reflexivity.
  - rewrite Hc. cbn [fst]. rewrite Hnone; [reflexivity|].
    intros ms. vm_compute. discriminate.
Defined.

(** X18 at work: the keys ab. *)
Lemma SendKeys_characters_witness :
  keyChars (λ _, (EmptyString, 0)) "ab" = ["a"; "b"].
Proof.
  apply (proj1 (proj2 (SendKeys_characters
                         (P := Demo.platform (Demo.always (Demo.ok "text/plain" "ok")))
                         (λ _, (EmptyString, 0)) "ab"))).
  repeat constructor.
Defined.

Section Bodies.
Context `{P : Platform}.

(** X19. With a reply in hand GetCookies never panics. It returns the
    error of the first decoding when the value does not decode as a list
    of cookies, and otherwise a nil error and the decoded cookies, changed
    in their expiry at most; for the value null that is the empty list. *)
Theorem GetCookies_with_reply ctx st r st' :
  send ctx "GET" (url st.1 "/session/%s/cookie" [wd_id st.1]) EmptyString st
    = ((Some r, None), st') →
  match UnmarshalRaw (Value r) decode_Cookies with
  | inl e => ∃ cs, GetCookies ctx st = (Return (cs, Some e), st')
  | inr cookies =>
      ∃ patched,
        GetCookies ctx st = (Return (patched, None), st')
        ∧ withoutExpiry <$> patched = withoutExpiry <$> cookies
  end
  ∧ (Value r = Some JNull → GetCookies ctx st = (Return ([], None), st')).
Proof.
  intros Hsend. unfold GetCookies. rewrite Hsend. cbn [readValue mbind option_bind].
  split.
  - destruct (UnmarshalRaw (Value r) decode_Cookies) as [e|cookies] eqn:Hc; [by eexists|].
    pose proof (parseCookieExpiry_outcome cookies (Value r)) as Hout.
    destruct (UnmarshalRaw (Value r) decode_expiries) as [e|expiries] eqn:He.
    + rewrite Hout. by exists cookies.
    + assert (length cookies = length expiries) as Hlen.
      { destruct (Value r) as [v|]; [|done]. cbn [UnmarshalRaw] in *.
        by eapply storeSlice_lengths. }
      rewrite decide_True in Hout by lia.
      destruct Hout as (patched & -> & _ & Hw). by exists patched.
  - intros ->. done.
Qed.

(** X20. send parses every body that is not empty, whatever the
    Content-Type. A success with a body that is no JSON text and does not
    announce JSON passes execute, which returns the bytes and a nil error,
    and then fails in send: voidCommand returns the syntax error. *)
Theorem plain_body_is_parsed_by_send ctx wd w urlTemplate res w1 buf :
  NewRequestError "POST" (url wd urlTemplate [wd_id wd]) = None →
  httpClient_Do (newRequest wd "POST" (url wd urlTemplate [wd_id wd]) EmptyString) w
    = (inr res, w1) →
  ReadAll res = inr buf →
  (StatusCode res < 400)%Z →
  String.prefix jsonMIMEType (ContentType res) = false →
  0 < String.length buf →
  scan buf = None →
  Done (wd_ctx wd) w = false →
  Done (wd_ctx wd) w1 = false →
  execute ctx "POST" (url wd urlTemplate [wd_id wd]) EmptyString (wd, w)
    = ((buf, None), (wd, w1))
  ∧ voidCommand ctx urlTemplate None (wd, w) = (Some SyntaxError, (wd, w1)).
Proof.
  intros HN HD HR Hlt Hct Hlen Hscan H1 H2.
  assert (execute_body wd "POST" (url wd urlTemplate [wd_id wd]) EmptyString w
          = ((buf, None), w1)) as HB.
  { rewrite (execute_body_answered _ _ _ _ _ res w1 buf) by done.
    unfold classify. rewrite Hct.
    by assert ((400 <=? StatusCode res)%Z = false) as -> by (apply Z.leb_gt; lia). }
  assert (execute ctx "POST" (url wd urlTemplate [wd_id wd]) EmptyString (wd, w)
          = ((buf, None), (wd, w1))) as HE.
  { rewrite execute_not_cancelled; rewrite ?HB; done. }
  split; [done|].
  unfold voidCommand, send. cbn [fst snd]. rewrite HE.
  rewrite bool_decide_eq_true_2 by done. unfold Unmarshal. by rewrite Hscan.
Qed.

End Bodies.

(** X19 at work: the value is a number; GetCookies returns the type error
    where FindElements would panic. *)
Lemma GetCookies_with_reply_witness :
  let P := Demo.platform
             (Demo.always (Demo.ok "application/json" (Demo.text "{'status':0,'value':5}"))) in
  ∃ cs, (GetCookies Background (Demo.driver, Demo.world)).1
        = Return (cs, Some (UnmarshalTypeError "[]Cookie")).
Proof.
  cbv zeta.
  edestruct (GetCookies_with_reply
               (P := Demo.platform
                       (Demo.always
                          (Demo.ok "application/json" (Demo.text "{'status':0,'value':5}"))))
               Background (Demo.driver, Demo.world))
    as (H & _).
  - vm_compute. reflexivity.
  - cbn [Value UnmarshalRaw decode_Cookies storeSlice] in H.
    destruct H as (cs & H). exists cs. rewrite H. reflexivity.
Defined.

(** X20 at work: the server answers a refresh with the plain text OK. *)
Lemma plain_body_is_parsed_by_send_witness :
  let P := Demo.platform (Demo.always (Demo.ok "text/plain" "OK")) in
  voidCommand Background "/session/%s/refresh" None (Demo.driver, Demo.world)
  = (Some SyntaxError,
     (Demo.driver,
      (execute_body Demo.driver "POST" "http://h/session/s1/refresh" EmptyString Demo.world).2)).
Proof.
  cbv zeta.
  edestruct (plain_body_is_parsed_by_send
               (P := Demo.platform (Demo.always (Demo.ok "text/plain" "OK")))
               Background Demo.driver Demo.world "/session/%s/refresh")
    as (_ & H).
  - reflexivity.
  - vm_compute. reflexivity.
  - reflexivity.
  - vm_compute. reflexivity.
  - reflexivity.
  - vm_compute. lia.
  - vm_compute. reflexivity.
  - reflexivity.
  - reflexivity.
  - rewrite H. vm_compute. reflexivity.
Defined.

Section ValueReceiver.
Context `{P : Platform}.

Lemma hop_fired via req w :
  match hop via req w with
  | Finished _ w1 | Follow _ _ w1 => fired w ⊆ fired w1
  end.
Proof.
  unfold hop. cbv zeta. destruct (answer (RoundTrip w req)) as [text|next|res];
    [|destruct (CheckRedirect next (via ++ [req])) as [[err|] next']|];
    cbn [fired]; set_solver.
Qed.

Lemma clientDo_fired fuel via req w : fired w ⊆ fired (clientDo fuel via req w).2.
Proof.
  revert via req w. induction fuel as [|fuel IH]; intros via req w; cbn [clientDo];
    pose proof (hop_fired via req w) as Hhop;
    destruct (hop via req w) as [result w1|via' next' w1]; cbn [fst snd]; try done.
  etrans; [exact Hhop|apply IH].
Qed.

Lemma execute_body_fired wd method addr data w :
  fired w ⊆ fired (execute_body wd method addr data w).2.
Proof.
  rewrite execute_body_world. destruct (NewRequestError method addr); [done|].
  apply clientDo_fired.
Qed.

Lemma Done_mono c w w' : fired w ⊆ fired w' → Done c w = true → Done c w' = true.
Proof.
  destruct c as [|token]; [done|]. cbn [Done]. intros Hsub H.
  apply bool_decide_eq_true in H. apply bool_decide_eq_true. set_solver.
Qed.

(** X22. stringsCommand is the one command with a value receiver: the
    Quit it triggers works on a copy of the driver. Called on a driver that
    has not quit and whose context has fired, it returns ErrCanceled and
    the delete of the session is put on the wire, yet the caller's driver
    is the one it was, not quit, its context still fired: the next such
    call finds the same and sends the delete again. *)
Theorem stringsCommand_repeats_teardown ctx urlTemplate wd w :
  wd_haveQuit wd = false →
  Done (wd_ctx wd) w = true →
  NewRequestError "DELETE" (URL (deleteRequest wd)) = None →
  let out := stringsCommand ctx urlTemplate (wd, w) in
  out.1 = Return ([], Some ErrCanceled)
  ∧ out.2.1 = wd
  ∧ Done (wd_ctx wd) out.2.2 = true
  ∧ ∃ rest, sent out.2.2 = sent w ++ deleteRequest wd :: rest.
Proof.
  intros HQ HD HN. cbv zeta.
  assert (execute ctx "GET" (url wd urlTemplate [wd_id wd]) EmptyString (wd, w)
          = ((EmptyString, Some ErrCanceled), (Quit Background (wd, w)).2)) as HE.
  { rewrite execute_cases. cbv zeta. by rewrite HD. }
  unfold stringsCommand, send. cbv zeta. cbn [fst snd]. rewrite HE.
  destruct (Quit Background (wd, w)) as [qerr [wd' w']] eqn:HQuit. cbn [fst snd].
  split; [done|]. split; [done|].
  pose proof (Quit_first Background wd w HQ) as HF. cbv zeta in HF.
  rewrite HQuit in HF.
  set (wd1 := set_ctx Background (set_haveQuit true wd)) in *.
  assert (w' = (execute_body wd1 "DELETE" (url wd1 "/session/%s" [wd_id wd1]) EmptyString w).2)
    as ->.
  { destruct (execute_body _ _ _ _ _) as [[buf [e|]] w1]; cbn [fst snd] in *; congruence. }
  split.
  - eapply Done_mono; [apply execute_body_fired|done].
  - apply (execute_body_sent wd1 "DELETE" (url wd1 "/session/%s" [wd_id wd1]) EmptyString w HN).
Qed.

End ValueReceiver.

(** C1, the code at the failing input. The context of a driver with the
    session s1 has been cancelled; the caller asks for the window handles
    twice (stringsCommand) and then calls Quit. After the first call the
    caller's driver is as it was, not quit, and in the end three deletes of
    the session are on the wire, one for each call, where the claim allows
    one. *)
Theorem cancelled_stringsCommand_repeats_delete :
  let P := Demo.platform (Demo.always (Demo.ok "text/plain" EmptyString)) in
  let wd := set_ctx (WithCancel 1) Demo.driver in
  let handles := OpStringsCommand Background "/session/%s/window_handles" in
  (step (wd, mkWorld [] {[1]}) handles).1 = wd
  ∧ sent (run [handles; handles; OpQuit Background] (wd, mkWorld [] {[1]})).2
    = [deleteRequest wd; deleteRequest wd; deleteRequest wd].
Proof.
  cbv zeta. split; vm_compute; reflexivity.
Qed.

(** X22 at work: the first cancelled call already sends the delete and
    leaves the driver not quit. *)
Lemma stringsCommand_repeats_teardown_witness :
  let P := Demo.platform (Demo.always (Demo.ok "text/plain" EmptyString)) in
  let wd := set_ctx (WithCancel 1) Demo.driver in
  let out := stringsCommand Background "/session/%s/window_handles" (wd, mkWorld [] {[1]}) in
  wd_haveQuit out.2.1 = false
  ∧ ∃ rest, sent out.2.2 = deleteRequest wd :: rest.
Proof.
  cbv zeta.
  destruct (stringsCommand_repeats_teardown
              (P := Demo.platform (Demo.always (Demo.ok "text/plain" EmptyString)))
              Background "/session/%s/window_handles"
              (set_ctx (WithCancel 1) Demo.driver) (mkWorld [] {[1]}))
    as (_ & Hwd & _ & rest & Hsent).
  - reflexivity.
  - vm_compute. reflexivity.
  - reflexivity.
  - split; [by rewrite Hwd|]. exists rest. exact Hsent.
Defined.
